(** * 0x02-redis_basic/exercise.py: a Redis-backed cache with call tracking

    A shallow embedding of [exercise.py] (the decorators [count_calls] and
    [call_history], the function [replay] and the class [Cache]) together
    with the part of the Python runtime and of the Redis client and server
    that the module drives, followed by the properties of the module.

    Layout:
    - [Py]      Python values, UTF-8, [repr], [str], [int], [uuid.uuid4];
    - [Redis]   what a key of a Redis database holds and the commands the
                module sends;
    - [Client]  the methods of a redis-py client the module calls, with
                the server's answer to each command;
    - the module itself, definition by definition, in source order;
    - facts about the runtime, the client and the module;
    - the properties of the module, C1 to C10, and the scenarios of the
      specification;
    - further properties of the module, X1 to X18: edge and error
      behaviour of [store] and [replay], what they leave untouched, and
      how the operations compose.

    What the model fixes about the world outside the module:
    - the client talks to one database of a server that answers every
      command (no connection error, no other writer);
    - replies are [bytes] (the client's default, [decode_responses=False]);
    - an attribute [_redis] holds a [redis.Redis] client or [None];
      objects of other classes that have the client's methods are left
      out;
    - a [float] is carried by its [repr] text and [bool] arguments are
      left out (the client refuses them);
    - an [int] is printed and parsed whatever its size, where the
      runtime raises [ValueError] beyond 4300 digits: a statement about
      every [int] that can be stored bounds the digits ([plain]);
    - [str.isprintable], a table of the Unicode database, is a parameter. *)

From Stdlib Require Import ZArith NArith List Ascii String Lia.
From Stdlib Require Import DecimalString DecimalZ DecimalN.
From stdpp Require Import base option list gmap strings.

Local Open Scope string_scope.
Local Open Scope list_scope.

(** Python [bytes] are strings of 8-bit characters; a Python [str] is a
    sequence of Unicode code points. *)
Abbreviation bytes := string (only parsing).
Abbreviation pystr := (list N) (only parsing).

(* ===================================================================== *)
(** ** Errors and the effect monad *)
(* ===================================================================== *)

(** The exceptions that can cross the module's functions. *)
Inductive exn : Type :=
| AttributeError        (* attribute access on an object that lacks it *)
| TypeError             (* wrong argument type or wrong call shape *)
| ValueError            (* int() on text that is not a number *)
| UnicodeDecodeError    (* bytes.decode('utf-8') on ill-formed UTF-8 *)
| UnicodeEncodeError    (* str.encode('utf-8') on a lone surrogate *)
| DataError             (* redis-py: value of a type it cannot send *)
| ResponseError (msg : string).  (* an error reply of the Redis server *)

Inductive result (A : Type) : Type :=
| Ok (a : A)
| Raise (e : exn).
Arguments Ok {A} a.
Arguments Raise {A} e.

Module Py.

(* ------------------------------------------------------------------- *)
(** *** Values *)

(** The values the module handles: [None], and the four types of
  [Union[str, bytes, int, float]].  A float is carried by its [repr]
  text, which is the only thing this module ever observes of a float. *)
Inductive value : Type :=
| VNone
| VStr (s : pystr)
| VBytes (b : bytes)
| VInt (z : Z)
| VFloat (r : string).

(** A [str] literal written with 8-bit characters. *)
Fixpoint u (s : string) : pystr :=
match s with
| EmptyString => []
| String a s' => N_of_ascii a :: u s'
end.

Definition byte (n : N) : ascii := ascii_of_N n.

(* ------------------------------------------------------------------- *)
(** *** UTF-8: [str.encode('utf-8')] and [bytes.decode('utf-8')], strict *)

Definition utf8_encode_char (c : N) : option bytes :=
if (c <? 0x80)%N then
  Some (String (byte c) "")
else if (c <? 0x800)%N then
  Some (String (byte (N.lor 0xC0 (N.shiftr c 6)))
       (String (byte (N.lor 0x80 (N.land c 0x3F))) ""))
else if (c <? 0x10000)%N then
  if ((0xD800 <=? c) && (c <=? 0xDFFF))%N then None
  else
    Some (String (byte (N.lor 0xE0 (N.shiftr c 12)))
         (String (byte (N.lor 0x80 (N.land (N.shiftr c 6) 0x3F)))
         (String (byte (N.lor 0x80 (N.land c 0x3F))) "")))
else if (c <? 0x110000)%N then
  Some (String (byte (N.lor 0xF0 (N.shiftr c 18)))
       (String (byte (N.lor 0x80 (N.land (N.shiftr c 12) 0x3F)))
       (String (byte (N.lor 0x80 (N.land (N.shiftr c 6) 0x3F)))
       (String (byte (N.lor 0x80 (N.land c 0x3F))) ""))))
else None.

Fixpoint utf8_encode (s : pystr) : option bytes :=
match s with
| [] => Some ""
| c :: s' =>
    match utf8_encode_char c, utf8_encode s' with
    | Some b, Some r => Some (b +:+ r)
    | _, _ => None
    end
end.

(** The payload of a continuation byte [10xxxxxx]. *)
Definition continuation (a : ascii) : option N :=
let n := N_of_ascii a in
if ((0x80 <=? n) && (n <=? 0xBF))%N then Some (N.land n 0x3F) else None.

Fixpoint utf8_decode (b : bytes) : option pystr :=
match b with
| EmptyString => Some []
| String a0 r0 =>
    let n0 := N_of_ascii a0 in
    if (n0 <? 0x80)%N then
      cons n0 <$> utf8_decode r0
    else if ((0xC2 <=? n0) && (n0 <=? 0xDF))%N then
      match r0 with
      | String a1 r1 =>
          match continuation a1 with
          | Some c1 =>
              cons (N.lor (N.shiftl (N.land n0 0x1F) 6) c1)
                <$> utf8_decode r1
          | None => None
          end
      | EmptyString => None
      end
    else if ((0xE0 <=? n0) && (n0 <=? 0xEF))%N then
      match r0 with
      | String a1 (String a2 r2) =>
          match continuation a1, continuation a2 with
          | Some c1, Some c2 =>
              let c := N.lor (N.shiftl (N.land n0 0x0F) 12)
                             (N.lor (N.shiftl c1 6) c2) in
              if ((0x800 <=? c) && negb ((0xD800 <=? c) && (c <=? 0xDFFF)))%N
              then cons c <$> utf8_decode r2
              else None
          | _, _ => None
          end
      | _ => None
      end
    else if ((0xF0 <=? n0) && (n0 <=? 0xF4))%N then
      match r0 with
      | String a1 (String a2 (String a3 r3)) =>
          match continuation a1, continuation a2, continuation a3 with
          | Some c1, Some c2, Some c3 =>
              let c := N.lor (N.shiftl (N.land n0 0x07) 18)
                         (N.lor (N.shiftl c1 12)
                            (N.lor (N.shiftl c2 6) c3)) in
              if ((0x10000 <=? c) && (c <? 0x110000))%N
              then cons c <$> utf8_decode r3
              else None
          | _, _, _ => None
          end
      | _ => None
      end
    else None
end.

(* ------------------------------------------------------------------- *)
(** *** Decimal text of integers: [repr(int)] and [int(bytes)] *)

Definition decimal (z : Z) : string := NilZero.string_of_int (Z.to_int z).

Definition is_digit (a : ascii) : bool :=
let n := N_of_ascii a in ((48 <=? n) && (n <=? 57))%N.

(** [Py_ISSPACE]: space, and tab to carriage return. *)
Definition is_space (a : ascii) : bool :=
let n := N_of_ascii a in ((n =? 32) || ((9 <=? n) && (n <=? 13)))%N.

Fixpoint skip_space (s : bytes) : bytes :=
match s with
| String a r => if is_space a then skip_space r else s
| EmptyString => EmptyString
end.

(** The digits of a literal, where one underscore may separate two
  digits; returns the digits and the unread rest. *)
Fixpoint scan_digits (s : bytes) : string * bytes :=
match s with
| String a r =>
    if is_digit a then
      let '(d, t) := scan_digits r in (String a d, t)
    else if Ascii.eqb a "_" then
      match r with
      | String a' _ => if is_digit a' then scan_digits r else ("", s)
      | EmptyString => ("", s)
      end
    else ("", s)
| EmptyString => ("", "")
end.

Definition digits_value (d : string) : option Z :=
Z.of_uint <$> NilEmpty.uint_of_string d.

(** [int(b)] for a [bytes] object [b], base 10: optional surrounding
  white space, an optional sign, digits with single underscores between
  them.  [None] stands for [ValueError].  No bound on the number of
  digits is modelled. *)
Definition int_of_bytes (b : bytes) : option Z :=
let s := skip_space b in
let '(neg, s1) :=
  match s with
  | String a r =>
      if Ascii.eqb a "-" then (true, r)
      else if Ascii.eqb a "+" then (false, r)
      else (false, s)
  | EmptyString => (false, s)
  end in
match s1 with
| String a _ =>
    if Ascii.eqb a "_" then None
    else
      let '(d, rest) := scan_digits s1 in
      match d, skip_space rest with
      | String _ _, EmptyString =>
          (fun z => if neg then (- z)%Z else z) <$> digits_value d
      | _, _ => None
      end
| EmptyString => None
end.

(* ------------------------------------------------------------------- *)
(** *** [repr] and [str] *)

(** A lower-case hexadecimal digit, and [n] written on [w] digits. *)
Definition hex_digit (d : N) : N :=
if (d <? 10)%N then (48 + d)%N else (87 + d)%N.

Definition hex_fixed (w : nat) (n : N) : pystr :=
map (fun i => hex_digit (N.land (N.shiftr n (4 * N.of_nat i)) 15))
    (rev (seq 0 w)).

(** The quote [repr] picks: double quotes only when the text holds a
  single quote and no double quote. *)
Definition repr_quote (s : list N) : N :=
if existsb (N.eqb 39) s && negb (existsb (N.eqb 34) s) then 34%N else 39%N.

Definition repr_escape (quote c : N) : option pystr :=
if ((c =? quote) || (c =? 92))%N then Some [92%N; c]
else if (c =? 9)%N then Some (u "\t")
else if (c =? 10)%N then Some (u "\n")
else if (c =? 13)%N then Some (u "\r")
else None.

(** [repr(b)] for [bytes]; it is also [str(b)] and what an f-string
  field renders. *)
Definition repr_bytes (b : bytes) : pystr :=
let s := u b in
let quote := repr_quote s in
u "b" ++ [quote] ++
flat_map (fun c =>
  match repr_escape quote c with
  | Some e => e
  | None =>
      if ((c <? 32) || (0x7F <=? c))%N then u "\x" ++ hex_fixed 2 c
      else [c]
  end) s ++ [quote].

Section Unicode.

(** [str.isprintable] on one code point: a table of the Unicode
    character database, which is not part of the module. *)
Variable isprintable : N -> bool.

Definition repr_str (s : pystr) : pystr :=
  let quote := repr_quote s in
  [quote] ++
  flat_map (fun c =>
    match repr_escape quote c with
    | Some e => e
    | None =>
        if ((c <? 32) || (c =? 0x7F))%N then u "\x" ++ hex_fixed 2 c
        else if (c <? 0x7F)%N then [c]
        else if isprintable c then [c]
        else if (c <=? 0xFF)%N then u "\x" ++ hex_fixed 2 c
        else if (c <=? 0xFFFF)%N then u "\u" ++ hex_fixed 4 c
        else u "\U" ++ hex_fixed 8 c
    end) s ++ [quote].

Definition repr (v : value) : pystr :=
  match v with
  | VNone => u "None"
  | VStr s => repr_str s
  | VBytes b => repr_bytes b
  | VInt z => u (decimal z)
  | VFloat r => u r
  end.

Fixpoint join (sep : pystr) (l : list pystr) : pystr :=
  match l with
  | [] => []
  | [x] => x
  | x :: l' => x ++ sep ++ join sep l'
  end.

(** [str(args)] for the tuple [args]. *)
Definition str_tuple (args : list value) : pystr :=
  match args with
  | [] => u "()"
  | [x] => u "(" ++ repr x ++ u ",)"
  | _ => u "(" ++ join (u ", ") (map repr args) ++ u ")"
  end.

End Unicode.

(* ------------------------------------------------------------------- *)
(** *** [uuid.uuid4] and [str(UUID)] *)

(** [UUID(bytes=os.urandom(16), version=4).int], where [rnd] is the
  big-endian value of the random bytes. *)
Definition uuid4_int (rnd : N) : N :=
let int := N.land rnd (N.ones 128) in
let int := N.ldiff int (N.shiftl 0xc000 48) in
let int := N.lor int (N.shiftl 0x8000 48) in
let int := N.ldiff int (N.shiftl 0xf000 64) in
N.lor int (N.shiftl 4 76).

Definition str_of_uuid (int : N) : pystr :=
let hex := hex_fixed 32 int in
firstn 8 hex ++ u "-" ++ firstn 4 (skipn 8 hex) ++ u "-" ++
firstn 4 (skipn 12 hex) ++ u "-" ++ firstn 4 (skipn 16 hex) ++ u "-" ++
skipn 20 hex.

End Py.

Import Py.

(* ===================================================================== *)
(** ** The world: one Redis database, the OS random source, stdout *)
(* ===================================================================== *)

Module Redis.

(** What a key of the database holds: a string or a list of strings
    (the only two types the module creates). *)
Inductive entry : Type :=
| RString (b : bytes)
| RList (l : list bytes).

(** The commands the module sends, as they reach the server. *)
Inductive command : Type :=
| FLUSHDB
| SET (key val : bytes)
| GET (key : bytes)
| INCRBY (key : bytes) (amount : Z)
| RPUSH (key val : bytes)
| LRANGE (key : bytes) (start stop : Z).

Definition is_write (c : command) : bool :=
  match c with
  | FLUSHDB | SET _ _ | INCRBY _ _ | RPUSH _ _ => true
  | GET _ | LRANGE _ _ _ => false
  end.

End Redis.
Import Redis.

Record world : Type := World {
  db : gmap string entry;     (* the selected Redis database *)
  log : list command;         (* every command sent so far, oldest first *)
  urandom : nat -> N;         (* the draws of os.urandom(16), as integers *)
  drawn : nat;                (* how many draws were consumed *)
  stdout : list pystr         (* the lines printed so far, oldest first *)
}.

Definition with_db (f : gmap string entry -> gmap string entry) (w : world) :=
  World (f (db w)) (log w) (urandom w) (drawn w) (stdout w).
Definition sent (c : command) (w : world) : world :=
  World (db w) (log w ++ [c]) (urandom w) (drawn w) (stdout w).

(** Computations that read and change the world and may raise; a raised
    exception keeps the changes made before it. *)
Definition M (A : Type) : Type := world -> result A * world.

Definition ret {A} (a : A) : M A := fun w => (Ok a, w).
Definition raise {A} (e : exn) : M A := fun w => (Raise e, w).
Definition bind {A B} (m : M A) (k : A -> M B) : M B :=
  fun w =>
    match m w with
    | (Ok a, w') => k a w'
    | (Raise e, w') => (Raise e, w')
    end.

Notation "x <- c1 ;; c2" := (bind c1 (fun x => c2))
  (at level 100, c1 at next level, right associativity).
Notation "c1 ;; c2" := (bind c1 (fun _ => c2))
  (at level 100, right associativity).

Definition lift {A} (r : result A) : M A := fun w => (r, w).

(** [for x in l: body(x)] *)
Fixpoint for_each {A} (l : list A) (body : A -> M unit) : M unit :=
  match l with
  | [] => ret tt
  | x :: l' => body x ;; for_each l' body
  end.

(** [print(line)] *)
Definition print (line : pystr) : M unit :=
  fun w => (Ok tt, World (db w) (log w) (urandom w) (drawn w) (stdout w ++ [line])).

(** [uuid.uuid4()] *)
Definition uuid4 : M N :=
  fun w => (Ok (uuid4_int (urandom w (drawn w))),
            World (db w) (log w) (urandom w) (S (drawn w)) (stdout w)).

Module Client.

(** The value of an attribute [_redis]: a [redis.Redis] client, or
    [None] (also what [getattr(o, '_redis', None)] gives for an object
    without the attribute). *)
Inductive handle : Type :=
| RedisClient
| NoClient.

(** [isinstance(h, redis.Redis)] *)
Definition isinstance_Redis (h : handle) : bool :=
  match h with RedisClient => true | NoClient => false end.

(** redis-py's [Encoder.encode]: what goes on the wire for an argument. *)
Definition Encoder_encode (v : value) : result bytes :=
  match v with
  | VBytes b => Ok b
  | VInt z =>
      match utf8_encode (u (decimal z)) with
      | Some b => Ok b
      | None => Raise UnicodeEncodeError
      end
  | VFloat r =>
      match utf8_encode (u r) with
      | Some b => Ok b
      | None => Raise UnicodeEncodeError
      end
  | VStr s =>
      match utf8_encode s with
      | Some b => Ok b
      | None => Raise UnicodeEncodeError
      end
  | VNone => Raise DataError
  end.

Definition WRONGTYPE : exn :=
  ResponseError "WRONGTYPE Operation against a key holding the wrong kind of value".
Definition NOT_AN_INTEGER : exn :=
  ResponseError "value is not an integer or out of range".
Definition OVERFLOW : exn :=
  ResponseError "increment or decrement would overflow".

Definition LLONG_MAX : Z := 9223372036854775807.
Definition LLONG_MIN : Z := -9223372036854775808.

(** The server's [string2ll]: exactly the canonical decimal text of a
    signed 64-bit integer. *)
Definition string2ll (b : bytes) : option Z :=
  match NilZero.int_of_string b with
  | Some d =>
      let z := Z.of_int d in
      if String.eqb (decimal z) b && (LLONG_MIN <=? z)%Z && (z <=? LLONG_MAX)%Z
      then Some z else None
  | None => None
  end.

(** A method call on the handle: it reaches the server only from a
    client. *)
Definition on_client {A} (h : handle) (m : M A) : M A :=
  match h with
  | RedisClient => m
  | NoClient => raise AttributeError
  end.

(** [h.flushdb()] *)
Definition flushdb (h : handle) : M unit :=
  on_client h (fun w => (Ok tt, with_db (fun _ => ∅) (sent FLUSHDB w))).

(** [h.set(name, value)] *)
Definition set (h : handle) (name : pystr) (val : value) : M unit :=
  on_client h (
    k <- lift (Encoder_encode (VStr name)) ;;
    v <- lift (Encoder_encode val) ;;
    fun w => (Ok tt, with_db (insert k (RString v)) (sent (SET k v) w))).

(** [h.get(name)]: the raw reply, [None] for an absent key. *)
Definition get (h : handle) (name : pystr) : M (option bytes) :=
  on_client h (
    k <- lift (Encoder_encode (VStr name)) ;;
    fun w =>
      let w := sent (GET k) w in
      match db w !! k with
      | None => (Ok None, w)
      | Some (RString b) => (Ok (Some b), w)
      | Some (RList _) => (Raise WRONGTYPE, w)
      end).

(** [h.incr(name)]: redis-py's [incr] is [incrby] with the amount 1,
    which sends INCRBY. *)
Definition incr (h : handle) (name : pystr) : M Z :=
  on_client h (
    k <- lift (Encoder_encode (VStr name)) ;;
    fun w =>
      let w := sent (INCRBY k 1) w in
      match db w !! k with
      | None => (Ok 1%Z, with_db (insert k (RString (decimal 1))) w)
      | Some (RString b) =>
          match string2ll b with
          | Some z =>
              if (z =? LLONG_MAX)%Z then (Raise OVERFLOW, w)
              else (Ok (z + 1)%Z,
                    with_db (insert k (RString (decimal (z + 1)))) w)
          | None => (Raise NOT_AN_INTEGER, w)
          end
      | Some (RList _) => (Raise WRONGTYPE, w)
      end).

(** [h.rpush(name, value)]: returns the new length. *)
Definition rpush (h : handle) (name : pystr) (val : value) : M Z :=
  on_client h (
    k <- lift (Encoder_encode (VStr name)) ;;
    v <- lift (Encoder_encode val) ;;
    fun w =>
      let w := sent (RPUSH k v) w in
      match db w !! k with
      | None => (Ok 1%Z, with_db (insert k (RList [v])) w)
      | Some (RList l) =>
          (Ok (Z.of_nat (length l) + 1)%Z,
           with_db (insert k (RList (l ++ [v]))) w)
      | Some (RString _) => (Raise WRONGTYPE, w)
      end).

(** The elements [start..stop] (inclusive, negative counts from the
    end) of a list, as the server's LRANGE selects them. *)
Definition range (l : list bytes) (start stop : Z) : list bytes :=
  let len := Z.of_nat (length l) in
  let start := if (start <? 0)%Z then Z.max 0 (len + start) else start in
  let stop := if (stop <? 0)%Z then (len + stop)%Z else stop in
  let stop := Z.min stop (len - 1) in
  if (stop <? start)%Z then []
  else firstn (Z.to_nat (stop - start + 1)) (skipn (Z.to_nat start) l).

(** [h.lrange(name, start, stop)] *)
Definition lrange (h : handle) (name : pystr) (start stop : Z)
  : M (list bytes) :=
  on_client h (
    k <- lift (Encoder_encode (VStr name)) ;;
    fun w =>
      let w := sent (LRANGE k start stop) w in
      match db w !! k with
      | None => (Ok [], w)
      | Some (RList l) => (Ok (range l start stop), w)
      | Some (RString _) => (Raise WRONGTYPE, w)
      end).

End Client.
Import Client.

(* ===================================================================== *)
(** ** exercise.py *)
(* ===================================================================== *)

(** An instance of [Cache]: its one attribute. *)
Record Cache : Type := { _redis : handle }.

Definition kwargs : Type := list (pystr * value).

(** A method as the decorators see it: [__qualname__] and the call
    [method(self, *args, **kwargs)]. *)
Record Method : Type := {
  __qualname__ : pystr;
  __call__ : Cache -> list value -> kwargs -> M value
}.

(** [functools.wraps(method)(invoker)]: [invoker] under the name of
    [method]. *)
Definition wraps (method : Method)
    (invoker : Cache -> list value -> kwargs -> M value) : Method :=
  {| __qualname__ := __qualname__ method; __call__ := invoker |}.

(** [count_calls], lines 13-25. *)
Definition count_calls (method : Method) : Method :=
  wraps method (fun self args kwargs =>
    (if isinstance_Redis (_redis self)
     then _ <- incr (_redis self) (__qualname__ method) ;; ret tt
     else ret tt) ;;
    __call__ method self args kwargs).

Section Exercise.

Variable isprintable : N -> bool.

(** [call_history], lines 28-45. *)
Definition call_history (method : Method) : Method :=
  wraps method (fun self args kwargs =>
    let in_key := __qualname__ method ++ u ":inputs" in
    let out_key := __qualname__ method ++ u ":outputs" in
    (if isinstance_Redis (_redis self)
     then _ <- rpush (_redis self) in_key (VStr (str_tuple isprintable args)) ;;
          ret tt
     else ret tt) ;;
    output <- __call__ method self args kwargs ;;
    (if isinstance_Redis (_redis self)
     then _ <- rpush (_redis self) out_key output ;; ret tt
     else ret tt) ;;
    ret output).

End Exercise.

(** What [replay] can be handed: a falsy object, a plain function (no
    [__self__]), or a method bound to a receiver. *)
Inductive receiver : Type :=
| Instance (c : Cache)     (* has the attribute [_redis] *)
| Bare.                    (* has no attribute [_redis] *)

Inductive callable : Type :=
| Falsy
| Function (m : Method)
| BoundMethod (self : receiver) (m : Method).

(** [getattr(o, '_redis', None)] *)
Definition getattr_redis (o : receiver) : handle :=
  match o with
  | Instance c => _redis c
  | Bare => NoClient
  end.

(** [x.decode('utf-8')] *)
Definition decode_utf8 (b : bytes) : M pystr :=
  match utf8_decode b with
  | Some s => ret s
  | None => raise UnicodeDecodeError
  end.

(** [int(x)] for [x] a [bytes] object. *)
Definition int_bytes (b : bytes) : M Z :=
  match int_of_bytes b with
  | Some z => ret z
  | None => raise ValueError
  end.

(** [int(reply or 0)]: [None] and [b''] are falsy. *)
Definition int_or_0 (reply : option bytes) : M Z :=
  match reply with
  | None | Some EmptyString => ret 0%Z
  | Some b => int_bytes b
  end.

(** [replay], lines 48-72. *)
Definition replay (fn : callable) : M unit :=
  match fn with
  | Falsy | Function _ => ret tt
  | BoundMethod self m =>
      let redis_store := getattr_redis self in
      if negb (isinstance_Redis redis_store) then ret tt
      else
        let fxn_name := __qualname__ m in
        let in_key := fxn_name ++ u ":inputs" in
        let out_key := fxn_name ++ u ":outputs" in
        reply <- get redis_store fxn_name ;;
        fxn_call_count <- int_or_0 reply ;;
        print (fxn_name ++ u " was called " ++ u (decimal fxn_call_count)
                 ++ u " times:") ;;
        fxn_inputs <- lrange redis_store in_key 0 (-1) ;;
        fxn_outputs <- lrange redis_store out_key 0 (-1) ;;
        for_each (combine fxn_inputs fxn_outputs) (fun '(fxn_input, fxn_output) =>
          input_text <- decode_utf8 fxn_input ;;
          print (fxn_name ++ u "(*" ++ input_text ++ u ") -> "
                   ++ repr_bytes fxn_output))
  end.

(** [Cache.__init__], lines 80-85. *)
Definition Cache__init__ : M Cache :=
  let self := {| _redis := RedisClient |} in
  flushdb (_redis self) ;;
  ret self.

(** How a call binds the one parameter [data] of [store]. *)
Definition store_data (args : list value) (kw : kwargs) : M value :=
  match args, kw with
  | [data], [] => ret data
  | [], [(name, data)] =>
      if decide (name = u "data") then ret data else raise TypeError
  | _, _ => raise TypeError
  end.

(** The body of [Cache.store], lines 89-101, before decoration. *)
Definition Cache_store_body : Method :=
  {| __qualname__ := u "Cache.store";
     __call__ := fun self args kw =>
       data <- store_data args kw ;;
       id <- uuid4 ;;
       let data_key := str_of_uuid id in
       set (_redis self) data_key data ;;
       ret (VStr data_key) |}.

Section Facade.

Variable isprintable : N -> bool.

(** [Cache.store] as decorated, lines 87-89. *)
Definition Cache_store : Method :=
  call_history isprintable (count_calls Cache_store_body).

(** [self.store(data)] *)
Definition store (self : Cache) (data : value) : M value :=
  __call__ Cache_store self [data] [].

End Facade.

(** The reply of [GET] as a Python value. *)
Definition value_of_reply (data : option bytes) : value :=
  match data with
  | Some b => VBytes b
  | None => VNone
  end.

(** [Cache.get], lines 103-115; [fn] receives the raw reply. *)
Definition Cache_get (self : Cache) (key : pystr)
    (fn : option (option bytes -> M value)) : M value :=
  data <- get (_redis self) key ;;
  match fn with
  | Some fn => fn data
  | None => ret (value_of_reply data)
  end.

(** [lambda x: x.decode('utf-8')]; [None] has no [decode]. *)
Definition lambda_decode (x : option bytes) : M value :=
  match x with
  | Some b => s <- decode_utf8 b ;; ret (VStr s)
  | None => raise AttributeError
  end.

(** [lambda x: int(x)]; [int(None)] is a type error. *)
Definition lambda_int (x : option bytes) : M value :=
  match x with
  | Some b => z <- int_bytes b ;; ret (VInt z)
  | None => raise TypeError
  end.

(** [Cache.get_str], lines 117-127. *)
Definition Cache_get_str (self : Cache) (key : pystr) : M value :=
  Cache_get self key (Some lambda_decode).

(** [Cache.get_int], lines 129-139. *)
Definition Cache_get_int (self : Cache) (key : pystr) : M value :=
  Cache_get self key (Some lambda_int).

(* ===================================================================== *)
(** ** Observations used in the statements *)
(* ===================================================================== *)

(** The three keys the decorators of [Cache.store] write to. *)
Definition COUNT_KEY : bytes := "Cache.store".
Definition IN_KEY : bytes := "Cache.store:inputs".
Definition OUT_KEY : bytes := "Cache.store:outputs".

(** The list held by a key; an absent key is the empty list. *)
Definition history (m : gmap string entry) (k : bytes) : option (list bytes) :=
  match m !! k with
  | None => Some []
  | Some (RList l) => Some l
  | Some (RString _) => None
  end.

(** The call counter held by a key, read the way [replay] reads it:
    [int(GET k or 0)]. *)
Definition counter (m : gmap string entry) (k : bytes) : option Z :=
  match m !! k with
  | None | Some (RString EmptyString) => Some 0%Z
  | Some (RString b) => int_of_bytes b
  | Some (RList _) => None
  end.

(** The integer the server's INCRBY finds under a key: 0 for an unset
    key, the number for a key that holds the decimal text of a signed
    64-bit integer. *)
Definition stored_int (m : gmap string entry) (k : bytes) : option Z :=
  match m !! k with
  | None => Some 0%Z
  | Some (RString b) => string2ll b
  | Some (RList _) => None
  end.

(** The bytes of a [str] made of ASCII code points only. *)
Fixpoint ascii_bytes (s : pystr) : bytes :=
  match s with
  | [] => EmptyString
  | c :: s' => String (byte c) (ascii_bytes s')
  end.

(** The key the next call of [store] will generate in world [w]. *)
Definition next_uuid (w : world) : pystr :=
  str_of_uuid (uuid4_int (urandom w (drawn w))).
Definition next_key (w : world) : bytes := ascii_bytes (next_uuid w).

Section Runs.

Variable isprintable : N -> bool.

(** [store] called once per element of [datas], in order. *)
Fixpoint store_all (self : Cache) (datas : list value) : M (list value) :=
  match datas with
  | [] => ret []
  | data :: rest =>
      key <- store isprintable self data ;;
      keys <- store_all self rest ;;
      ret (key :: keys)
  end.

End Runs.

(** The four commands of one call of [store], in the order they are
    sent: input history, counter, value, output history. *)
Definition store_commands (w : world) (inputs val : bytes) : list command :=
  [ RPUSH IN_KEY inputs; INCRBY COUNT_KEY 1; SET (next_key w) val;
    RPUSH OUT_KEY (next_key w) ].

(** A read through one of the three getters; the decode function given
    to [get] is a function of the reply alone. *)
Inductive read : Type :=
| Get (key : pystr) (fn : option (option bytes -> result value))
| GetStr (key : pystr)
| GetInt (key : pystr).

Definition run_read (self : Cache) (r : read) : M value :=
  match r with
  | Get key fn => Cache_get self key ((fun f x => lift (f x)) <$> fn)
  | GetStr key => Cache_get_str self key
  | GetInt key => Cache_get_int self key
  end.

(** Any number of reads in a row; a read that raises does not stop the
    caller from issuing the next one. *)
Fixpoint run_reads (self : Cache) (rs : list read) (w : world) : world :=
  match rs with
  | [] => w
  | r :: rs' => run_reads self rs' (snd (run_read self r w))
  end.

(** The line [replay] prints for one pair of history entries. *)
Definition entry_line (name input_text : pystr) (output : bytes) : pystr :=
  name ++ u "(*" ++ input_text ++ u ") -> " ++ repr_bytes output.

Definition summary_line (name : pystr) (n : Z) : pystr :=
  name ++ u " was called " ++ u (decimal n) ++ u " times:".

(** The arguments of [replay] that C7 lists: a falsy value, a function
    without receiver, a receiver whose [_redis] is not a client. *)
Definition not_replayable (fn : callable) : bool :=
  match fn with
  | Falsy | Function _ => true
  | BoundMethod self _ => negb (isinstance_Redis (getattr_redis self))
  end.

(** A world to run examples in: an empty database and a fixed random
    source. *)
Definition example_world : world :=
  World ∅ [] (fun n => (N.of_nat n * 0x1234567890abcdef1234567)%N) 0 [].

(** A stand-in for [str.isprintable] in the examples (which hold ASCII
    text only). *)
Definition ascii_printable (c : N) : bool := ((32 <=? c) && (c <? 127))%N.

(** An instance with a live client, as [Cache()] returns it. *)
Definition live : Cache := {| _redis := RedisClient |}.

(** A method that returns [None] and touches nothing. *)
Definition returns_None : Method :=
  {| __qualname__ := u "Cache.touch";
     __call__ := fun _ _ _ => ret VNone |}.

(** The texts of the input history entries. *)
Definition decoded (inputs : list bytes) (texts : list pystr) : Prop :=
  Forall2 (fun b t => utf8_decode b = Some t) inputs texts.

(** [w'] comes from [w] by reads alone: the database is the same and
    only reading commands were sent in between. *)
Definition reads_only (w w' : world) : Prop :=
  db w' = db w /\
  exists cmds, log w' = log w ++ cmds /\
               Forall (fun c => is_write c = false) cmds.

(** The world after some lines were printed. *)
Definition printed (lines : list pystr) (w : world) : world :=
  World (db w) (log w) (urandom w) (drawn w) (stdout w ++ lines).

(** The world after [Cache()] and three calls of [store]. *)
Definition three_stores : world :=
  snd ((self <- Cache__init__ ;;
        store_all ascii_printable self [VStr (u "a"); VStr (u "b"); VStr (u "c")])
       example_world).

(** What the counter key holds after [n] calls, and what a history key
    holds for the list [l]: nothing before the first call. *)
Definition tally (n : nat) : option entry :=
  match n with
  | O => None
  | S _ => Some (RString (decimal (Z.of_nat n)))
  end.

Definition shelf (l : list bytes) : option entry :=
  match l with
  | [] => None
  | _ :: _ => Some (RList l)
  end.

(** The books of [Cache.store] after calls with the given input texts
    and returned keys. *)
Definition booked (m : gmap string entry) (inputs outputs : list bytes) : Prop :=
  m !! COUNT_KEY = tally (length inputs) /\
  m !! IN_KEY = shelf inputs /\
  m !! OUT_KEY = shelf outputs /\
  length inputs = length outputs /\
  (Z.of_nat (length inputs) <= LLONG_MAX)%Z.

(** [data] can be recorded and stored: its tuple text goes on the wire
    as [a] and the value itself as [v]. *)
Definition storable (isprintable : N -> bool) (data : value) (a v : bytes) : Prop :=
  Encoder_encode (VStr (str_tuple isprintable [data])) = Ok a /\
  Encoder_encode data = Ok v.

(** [Cache()], one call of [store] per element of [datas], then
    [replay(cache.store)]. *)
Definition store_and_replay (isprintable : N -> bool) (datas : list value)
  : M (list value) :=
  self <- Cache__init__ ;;
  keys <- store_all isprintable self datas ;;
  replay (BoundMethod (Instance self) (Cache_store isprintable)) ;;
  ret keys.

(* ===================================================================== *)
(** ** Observations used in the further properties *)
(* ===================================================================== *)

Section Attempts.

Variable isprintable : N -> bool.

(** [store] called once per element of [datas], the caller going on
    after a call that raised. *)
Fixpoint attempt_all (self : Cache) (datas : list value) (w : world) : world :=
  match datas with
  | [] => w
  | data :: rest => attempt_all self rest (snd (store isprintable self data w))
  end.

End Attempts.

(** The books of [Cache.store] by their sizes: [ni] recorded inputs, a
    counter that reads [c], [no] recorded outputs. *)
Definition ledger (m : gmap string entry) (ni c no : nat) : Prop :=
  exists ins outs,
    m !! COUNT_KEY = tally c /\ m !! IN_KEY = shelf ins /\
    m !! OUT_KEY = shelf outs /\
    length ins = ni /\ length outs = no /\ (Z.of_nat c <= LLONG_MAX)%Z.

(** A computation that only reads the database. *)
Definition reader {A} (m : M A) : Prop :=
  forall w, reads_only w (snd (m w)).

(** A computation that takes nothing back from what was printed. *)
Definition appends {A} (m : M A) : Prop :=
  forall w, exists lines, stdout (snd (m w)) = stdout w ++ lines.

(** Values that go on the wire whatever [str.isprintable] says: [bytes],
    and the [int]s the runtime prints, those of at most 4300 digits
    ([sys.int_info.default_max_str_digits]; beyond it [str] and [repr]
    raise [ValueError]). *)
Definition plain (v : value) : Prop :=
  match v with
  | VBytes _ => True
  | VInt z => (Z.abs z < 10 ^ 4300)%Z
  | VNone | VStr _ | VFloat _ => False
  end.

(** Worlds for the examples: a value kept under a key of its own, a
    counter key that holds text, an input history with an entry that is
    not UTF-8. *)
Definition kept_world : world :=
  with_db (insert "other" (RString "kept")) example_world.

Definition bad_counter_world : world :=
  with_db (insert COUNT_KEY (RString "many")) example_world.

Definition bad_input_world : world :=
  with_db (insert IN_KEY (RList ["('a',)"; String (byte 255) ""; "('c',)"]))
    (with_db (insert OUT_KEY (RList ["k1"; "k2"; "k3"])) example_world).

(* ===================================================================== *)
(** ** Facts about the monad *)
(* ===================================================================== *)

Lemma bind_Ok {A B} (m : M A) (k : A -> M B) w b w' :
  bind m k w = (Ok b, w') ->
  exists a w1, m w = (Ok a, w1) /\ k a w1 = (Ok b, w').
Proof.
  unfold bind. destruct (m w) as [[a|e] w1]; [eauto | discriminate].
Qed.

Lemma bind_Raise {A B} (m : M A) (k : A -> M B) w e w' :
  bind m k w = (Raise e, w') ->
  m w = (Raise e, w') \/ exists a w1, m w = (Ok a, w1) /\ k a w1 = (Raise e, w').
Proof.
  unfold bind. destruct (m w) as [[a|e1] w1]; [eauto | left; congruence].
Qed.

Lemma bind_eq_Ok {A B} (m : M A) (k : A -> M B) w a w1 :
  m w = (Ok a, w1) -> bind m k w = k a w1.
Proof. unfold bind. now intros ->. Qed.

(* ===================================================================== *)
(** ** Facts about the Python runtime *)
(* ===================================================================== *)

Lemma byte_N_of_ascii a : byte (N_of_ascii a) = a.
Proof. apply ascii_N_embedding. Qed.

Lemma ascii_bytes_u s : ascii_bytes (u s) = s.
Proof. induction s as [|a s IH]; simpl; [done|]. now rewrite byte_N_of_ascii, IH. Qed.

Lemma length_ascii_bytes s : String.length (ascii_bytes s) = length s.
Proof. induction s; simpl; auto. Qed.

Lemma utf8_encode_ascii s :
  Forall (fun c => (c < 0x80)%N) s -> utf8_encode s = Some (ascii_bytes s).
Proof.
  induction 1 as [|c s Hc _ IH]; simpl; [done|].
  unfold utf8_encode_char. apply N.ltb_lt in Hc. rewrite Hc, IH. done.
Qed.

Lemma utf8_encode_app s t :
  utf8_encode (s ++ t) =
  match utf8_encode s, utf8_encode t with
  | Some a, Some b => Some (a +:+ b)
  | _, _ => None
  end.
Proof.
  induction s as [|c s IH]; simpl.
  - now destruct (utf8_encode t).
  - rewrite IH. destruct (utf8_encode_char c) as [x|]; [|done].
    destruct (utf8_encode s) as [a|]; [|done].
    destruct (utf8_encode t) as [b|]; [|done].
    f_equal. clear. induction x; simpl; [done|]. unfold String.app in *. simpl. now f_equal.
Qed.

Lemma hex_digit_ascii d : (d <= 15)%N -> (hex_digit d < 0x80)%N.
Proof. unfold hex_digit. destruct (N.ltb_spec d 10); lia. Qed.

Lemma hex_fixed_ascii w n : Forall (fun c => (c < 0x80)%N) (hex_fixed w n).
Proof.
  unfold hex_fixed. apply Forall_map, Forall_forall. intros i _. simpl.
  apply hex_digit_ascii.
  change 15%N with (N.ones 4). rewrite N.land_ones.
  assert (N.shiftr n (4 * N.of_nat i) mod 2 ^ 4 < 2 ^ 4)%N as H
    by (apply N.mod_upper_bound; discriminate).
  change (2 ^ 4)%N with 16%N in *. change (N.ones 4) with 15%N. lia.
Qed.

Lemma str_of_uuid_ascii n : Forall (fun c => (c < 0x80)%N) (str_of_uuid n).
Proof.
  unfold str_of_uuid.
  repeat apply Forall_app_2;
    try (apply Forall_take || apply Forall_drop); 
    try (apply Forall_take || apply Forall_drop); 
    try apply hex_fixed_ascii; repeat constructor.
Qed.

Lemma length_str_of_uuid n : length (str_of_uuid n) = 36.
Proof. reflexivity. Qed.

(** *** Decimal text *)

Lemma is_digit_plain a :
  is_digit a = true ->
  is_space a = false /\ Ascii.eqb a "-" = false /\ Ascii.eqb a "+" = false
  /\ Ascii.eqb a "_" = false.
Proof.
  destruct a as [[|] [|] [|] [|] [|] [|] [|] [|]]; vm_compute; intuition congruence.
Qed.

Lemma scan_digits_uint d :
  scan_digits (NilEmpty.string_of_uint d) = (NilEmpty.string_of_uint d, "").
Proof.
  induction d; simpl; [done | ..]; now rewrite IHd.
Qed.

Lemma head_digit_uint d :
  d <> Decimal.Nil ->
  exists a r, NilEmpty.string_of_uint d = String a r /\ is_digit a = true.
Proof. destruct d; [done | ..]; intros _; simpl; eauto. Qed.

(** [int(b)] reads back the digits of an unsigned decimal. *)
Lemma int_of_bytes_uint d :
  d <> Decimal.Nil ->
  int_of_bytes (NilEmpty.string_of_uint d) = Some (Z.of_uint d).
Proof.
  intros Hd. destruct (head_digit_uint d Hd) as (a & r & E & Ha).
  destruct (is_digit_plain a Ha) as (Hs & Hm & Hp & Hu).
  unfold int_of_bytes. rewrite E. simpl skip_space. rewrite Hs, Hm, Hp, Hu.
  rewrite <- E, scan_digits_uint, E. simpl skip_space.
  unfold digits_value. now rewrite <- E, NilEmpty.usu.
Qed.

Lemma pos_to_uint_nonnil p : Pos.to_uint p <> Decimal.Nil.
Proof.
  intros H. pose proof (DecimalPos.Unsigned.of_to p) as E. rewrite H in E.
  discriminate.
Qed.

Lemma int_of_bytes_neg d :
  d <> Decimal.Nil ->
  int_of_bytes (String "-" (NilEmpty.string_of_uint d)) = Some (- Z.of_uint d)%Z.
Proof.
  intros Hd. destruct (head_digit_uint d Hd) as (a & r & E & Ha).
  destruct (is_digit_plain a Ha) as (Hs & Hm & Hp & Hu).
  unfold int_of_bytes. simpl skip_space. change (is_space "-") with false.
  cbv iota. change (Ascii.eqb "-" "-") with true. cbv iota beta.
  rewrite E, Hu, <- E, scan_digits_uint, E. simpl skip_space.
  unfold digits_value. now rewrite <- E, NilEmpty.usu.
Qed.

Lemma string_of_uint_nonnil d :
  d <> Decimal.Nil -> NilZero.string_of_uint d = NilEmpty.string_of_uint d.
Proof. now destruct d. Qed.

(** [int(repr(z).encode()) == z]. *)
Lemma int_of_bytes_decimal z : int_of_bytes (decimal z) = Some z.
Proof.
  unfold decimal. destruct z as [|p|p]; [reflexivity | ..];
    pose proof (pos_to_uint_nonnil p) as Hp; simpl Z.to_int;
    unfold NilZero.string_of_int; rewrite string_of_uint_nonnil by done.
  - rewrite int_of_bytes_uint by done. f_equal. apply (DecimalZ.of_to (Z.pos p)).
  - rewrite int_of_bytes_neg by done. f_equal. apply (DecimalZ.of_to (Z.neg p)).
Qed.

Lemma decimal_nonempty z : decimal z <> "".
Proof.
  intros H. pose proof (int_of_bytes_decimal z) as E. rewrite H in E. discriminate.
Qed.

(** What the server accepts as an integer is the canonical text of that
    integer. *)
Lemma string2ll_Some b z : string2ll b = Some z -> b = decimal z.
Proof.
  unfold string2ll. destruct (NilZero.int_of_string b) as [d|]; [|done].
  destruct (String.eqb_spec (decimal (Z.of_int d)) b) as [E|]; [|done].
  simpl. destruct (_ && _); [|done]. intros [= <-]. done.
Qed.

Lemma to_int_nonnil z :
  Z.to_int z <> Decimal.Pos Decimal.Nil /\ Z.to_int z <> Decimal.Neg Decimal.Nil.
Proof.
  destruct z as [|p|p]; simpl; split; try discriminate;
    intros [= H]; now apply (pos_to_uint_nonnil p).
Qed.

Lemma string2ll_decimal z :
  (LLONG_MIN <= z <= LLONG_MAX)%Z -> string2ll (decimal z) = Some z.
Proof.
  intros Hz. unfold string2ll, decimal.
  rewrite NilZero.isi by apply to_int_nonnil.
  rewrite DecimalZ.of_to, String.eqb_refl.
  destruct (Z.leb_spec LLONG_MIN z), (Z.leb_spec z LLONG_MAX); simpl; [done | lia..].
Qed.

(** The counter as [replay] reads it, on the text INCR leaves. *)
Lemma counter_decimal m k z :
  m !! k = Some (RString (decimal z)) -> counter m k = Some z.
Proof.
  unfold counter. intros ->. pose proof (decimal_nonempty z).
  destruct (decimal z) eqn:E; [done|]. rewrite <- E. apply int_of_bytes_decimal.
Qed.

(** *** UTF-8: decoding undoes encoding *)

(** Linear arithmetic with division and remainder by constants. *)
Ltac nlia := zify; Z.to_euclidean_division_equations; lia.

Lemma lor_add a b k :
  (a mod 2 ^ k = 0)%N -> (b < 2 ^ k)%N -> N.lor a b = (a + b)%N.
Proof.
  intros Ha Hb.
  assert (N.land a b = 0%N) as H.
  { apply N.bits_inj_0. intros i. rewrite N.land_spec.
    destruct (N.lt_ge_cases i k) as [Hi|Hi].
    - rewrite <- (N.mod_pow2_bits_low a k i Hi), Ha. now rewrite N.bits_0.
    - rewrite <- (N.mod_small b (2 ^ k)) by done.
      rewrite N.mod_pow2_bits_high by done. apply andb_false_r. }
  now rewrite <- N.lxor_lor, <- N.add_nocarry_lxor.
Qed.

Lemma N_of_ascii_byte n : (n < 256)%N -> N_of_ascii (byte n) = n.
Proof. apply N_ascii_embedding. Qed.

Lemma continuation_byte n :
  (0x80 <= n <= 0xBF)%N -> continuation (byte n) = Some (n mod 64)%N.
Proof.
  intros Hn. unfold continuation. rewrite N_of_ascii_byte by lia.
  destruct (N.leb_spec 0x80 n), (N.leb_spec n 0xBF); try lia. simpl.
  change 0x3F%N with (N.ones 6). now rewrite N.land_ones.
Qed.

Lemma decode_1 n r :
  (n < 0x80)%N -> utf8_decode (String (byte n) r) = cons n <$> utf8_decode r.
Proof.
  intros Hn. cbn [utf8_decode]. rewrite N_of_ascii_byte by lia.
  now destruct (N.ltb_spec n 0x80); [|lia].
Qed.

Lemma decode_2 q x r :
  (2 <= q < 32)%N -> (x < 64)%N ->
  utf8_decode (String (byte (192 + q)) (String (byte (128 + x)) r))
  = cons (q * 64 + x)%N <$> utf8_decode r.
Proof.
  intros Hq Hx. cbn [utf8_decode]. rewrite N_of_ascii_byte by lia.
  rewrite continuation_byte by lia.
  destruct (N.ltb_spec (192 + q) 0x80); [lia|].
  destruct (N.leb_spec 0xC2 (192 + q)), (N.leb_spec (192 + q) 0xDF); try lia.
  cbn [andb]. do 2 f_equal.
  change 0x1F%N with (N.ones 5). rewrite N.land_ones, N.shiftl_mul_pow2.
  change (2 ^ 5)%N with 32%N. change (2 ^ 6)%N with 64%N.
  rewrite (lor_add _ _ 6); change (2 ^ 6)%N with 64%N; nlia.
Qed.

Lemma decode_3 q x1 x2 r :
  (q < 16)%N -> (x1 < 64)%N -> (x2 < 64)%N ->
  let c := (q * 4096 + x1 * 64 + x2)%N in
  (0x800 <= c)%N -> ~ (0xD800 <= c <= 0xDFFF)%N ->
  utf8_decode (String (byte (224 + q)) (String (byte (128 + x1))
                 (String (byte (128 + x2)) r)))
  = cons c <$> utf8_decode r.
Proof.
  intros Hq H1 H2 c Hc Hs. cbn [utf8_decode]. rewrite N_of_ascii_byte by lia.
  rewrite !continuation_byte by lia.
  destruct (N.ltb_spec (224 + q) 0x80); [lia|].
  destruct (N.leb_spec 0xC2 (224 + q)), (N.leb_spec (224 + q) 0xDF); try lia.
  destruct (N.leb_spec 0xE0 (224 + q)), (N.leb_spec (224 + q) 0xEF); try lia.
  cbn [andb].
  change 0x0F%N with (N.ones 4). rewrite N.land_ones, !N.shiftl_mul_pow2.
  change (2 ^ 4)%N with 16%N. change (2 ^ 6)%N with 64%N.
  change (2 ^ 12)%N with 4096%N.
  rewrite (lor_add _ ((128 + x2) mod 64) 6) by (change (2 ^ 6)%N with 64%N; nlia).
  rewrite (lor_add _ _ 12) by (change (2 ^ 12)%N with 4096%N; nlia).
  replace ((224 + q) mod 16 * 4096 + ((128 + x1) mod 64 * 64 + (128 + x2) mod 64))%N
    with c by (unfold c; nlia).
  destruct (N.leb_spec 0x800 c); [|lia]. cbn [andb].
  destruct (N.leb_spec 0xD800 c), (N.leb_spec c 0xDFFF); try done; lia.
Qed.

Lemma decode_4 q x1 x2 x3 r :
  (q < 8)%N -> (x1 < 64)%N -> (x2 < 64)%N -> (x3 < 64)%N ->
  let c := (q * 262144 + x1 * 4096 + x2 * 64 + x3)%N in
  (0x10000 <= c < 0x110000)%N ->
  utf8_decode (String (byte (240 + q)) (String (byte (128 + x1))
                 (String (byte (128 + x2)) (String (byte (128 + x3)) r))))
  = cons c <$> utf8_decode r.
Proof.
  intros Hq H1 H2 H3 c Hc. cbn [utf8_decode]. rewrite N_of_ascii_byte by lia.
  rewrite !continuation_byte by lia.
  assert (q <= 4)%N by (unfold c in Hc; lia).
  destruct (N.ltb_spec (240 + q) 0x80); [lia|].
  destruct (N.leb_spec 0xC2 (240 + q)), (N.leb_spec (240 + q) 0xDF); try lia.
  destruct (N.leb_spec 0xE0 (240 + q)), (N.leb_spec (240 + q) 0xEF); try lia.
  destruct (N.leb_spec 0xF0 (240 + q)), (N.leb_spec (240 + q) 0xF4); try lia.
  cbn [andb].
  change 0x07%N with (N.ones 3). rewrite N.land_ones, !N.shiftl_mul_pow2.
  change (2 ^ 3)%N with 8%N. change (2 ^ 6)%N with 64%N.
  change (2 ^ 12)%N with 4096%N. change (2 ^ 18)%N with 262144%N.
  replace ((240 + q) mod 8)%N with q by (clear - Hq; nlia).
  replace ((128 + x1) mod 64)%N with x1 by (clear - H1; nlia).
  replace ((128 + x2) mod 64)%N with x2 by (clear - H2; nlia).
  replace ((128 + x3) mod 64)%N with x3 by (clear - H3; nlia).
  rewrite (lor_add _ x3 6) by (change (2 ^ 6)%N with 64%N; clear - H3; nlia).
  rewrite (lor_add (x1 * 4096) _ 12)
    by (change (2 ^ 12)%N with 4096%N; clear - H2 H3; nlia).
  rewrite (lor_add _ _ 18)
    by (change (2 ^ 18)%N with 262144%N; clear - H1 H2 H3; nlia).
  replace (q * 262144 + (x1 * 4096 + (x2 * 64 + x3)))%N with c by (unfold c; lia).
  destruct (N.leb_spec 0x10000 c), (N.ltb_spec c 0x110000); try done; lia.
Qed.

(** The bytes of one code point, in arithmetic form. *)
Lemma utf8_encode_char_bytes c b :
  utf8_encode_char c = Some b ->
  ((c < 0x80)%N /\ b = String (byte c) "") \/
  ((0x80 <= c < 0x800)%N /\
   b = String (byte (192 + c / 64)) (String (byte (128 + c mod 64)) "")) \/
  ((0x800 <= c < 0x10000)%N /\ ~ (0xD800 <= c <= 0xDFFF)%N /\
   b = String (byte (224 + c / 4096))
         (String (byte (128 + c / 64 mod 64))
            (String (byte (128 + c mod 64)) ""))) \/
  ((0x10000 <= c < 0x110000)%N /\
   b = String (byte (240 + c / 262144))
         (String (byte (128 + c / 4096 mod 64))
            (String (byte (128 + c / 64 mod 64))
               (String (byte (128 + c mod 64)) "")))).
Proof.
  unfold utf8_encode_char.
  change 0x3F%N with (N.ones 6). rewrite !N.land_ones, !N.shiftr_div_pow2.
  change (2 ^ 6)%N with 64%N. change (2 ^ 12)%N with 4096%N.
  change (2 ^ 18)%N with 262144%N.
  destruct (N.ltb_spec c 0x80); [intros [= <-]; now left|].
  destruct (N.ltb_spec c 0x800).
  { intros [= <-]. right. left. split; [lia|].
    rewrite (lor_add 0xC0 _ 6), (lor_add 0x80 _ 6);
      try done; change (2 ^ 6)%N with 64%N; nlia. }
  destruct (N.ltb_spec c 0x10000).
  { destruct (N.leb_spec 0xD800 c), (N.leb_spec c 0xDFFF); cbn [andb];
      try done; intros [= <-]; right; right; left; (split; [lia|]);
      (split; [lia|]);
      rewrite (lor_add 0xE0 _ 5), !(lor_add 0x80 _ 6);
      try done; try (change (2 ^ 6)%N with 64%N; nlia);
      change (2 ^ 5)%N with 32%N; nlia. }
  destruct (N.ltb_spec c 0x110000); [|done].
  intros [= <-]. right. right. right. split; [lia|].
  rewrite (lor_add 0xF0 _ 4), !(lor_add 0x80 _ 6);
    try done; try (change (2 ^ 6)%N with 64%N; nlia);
    change (2 ^ 4)%N with 16%N; nlia.
Qed.

Lemma utf8_decode_encode_char c b r :
  utf8_encode_char c = Some b ->
  utf8_decode (b +:+ r) = cons c <$> utf8_decode r.
Proof.
  intros H. apply utf8_encode_char_bytes in H
    as [(Hc & ->) | [(Hc & ->) | [(Hc & Hs & ->) | (Hc & ->)]]];
    unfold String.app; cbn [String.append].
  - now apply decode_1.
  - rewrite decode_2 by nlia. do 2 f_equal. nlia.
  - rewrite decode_3; try nlia. do 2 f_equal. nlia.
  - rewrite decode_4; try nlia. do 2 f_equal. nlia.
Qed.

(** [s.encode('utf-8').decode('utf-8') == s] *)
Lemma utf8_decode_encode s b : utf8_encode s = Some b -> utf8_decode b = Some s.
Proof.
  revert b. induction s as [|c s IH]; intros b; simpl.
  - now intros [= <-].
  - destruct (utf8_encode_char c) as [bc|] eqn:Ec; [|done].
    destruct (utf8_encode s) as [bs|]; [|done]. intros [= <-].
    rewrite (utf8_decode_encode_char _ _ _ Ec), (IH bs eq_refl). done.
Qed.

(** *** Texts made of ASCII only *)

Lemma uint_text_ascii d :
  Forall (fun c => (c < 0x80)%N) (u (NilEmpty.string_of_uint d)).
Proof. induction d; simpl; constructor; (done || lia). Qed.

Lemma decimal_ascii z : Forall (fun c => (c < 0x80)%N) (u (decimal z)).
Proof.
  unfold decimal. destruct z as [|p|p]; simpl Z.to_int;
    unfold NilZero.string_of_int, NilZero.string_of_uint.
  - repeat constructor.
  - destruct (Pos.to_uint p) eqn:E; try (repeat constructor; fail);
      rewrite <- E; apply uint_text_ascii.
  - constructor; [done|].
    destruct (Pos.to_uint p) eqn:E; try (repeat constructor; fail);
      rewrite <- E; apply uint_text_ascii.
Qed.

(** An [int] goes on the wire as its decimal text. *)
Lemma encode_int z : Encoder_encode (VInt z) = Ok (decimal z).
Proof.
  unfold Encoder_encode.
  now rewrite (utf8_encode_ascii _ (decimal_ascii z)), ascii_bytes_u.
Qed.

Lemma repr_quote_ascii s : (repr_quote s < 0x80)%N.
Proof. unfold repr_quote. now destruct (_ && _). Qed.

Lemma repr_bytes_ascii b : Forall (fun c => (c < 0x80)%N) (repr_bytes b).
Proof.
  unfold repr_bytes. pose proof (repr_quote_ascii (u b)) as Hq.
  set (quote := repr_quote (u b)) in *. clearbody quote.
  repeat apply Forall_app_2; try (repeat constructor; done).
  apply Forall_flat_map, Forall_forall. intros c _.
  unfold repr_escape.
  destruct (N.eqb_spec c quote) as [->|]; [repeat constructor; done|].
  destruct (N.eqb_spec c 92) as [->|]; [repeat constructor; done|].
  cbn [orb].
  destruct (N.eqb_spec c 9); [repeat constructor|].
  destruct (N.eqb_spec c 10); [repeat constructor|].
  destruct (N.eqb_spec c 13); [repeat constructor|].
  destruct (N.ltb_spec c 32); cbn [orb].
  { apply Forall_app_2; [repeat constructor | apply hex_fixed_ascii]. }
  destruct (N.leb_spec 0x7F c).
  { apply Forall_app_2; [repeat constructor | apply hex_fixed_ascii]. }
  repeat constructor. lia.
Qed.

(** A [bytes] argument can always be recorded and stored. *)
Lemma bytes_storable isprintable b :
  Encoder_encode (VStr (str_tuple isprintable [VBytes b]))
    = Ok (ascii_bytes (str_tuple isprintable [VBytes b])) /\
  Encoder_encode (VBytes b) = Ok b.
Proof.
  split; [|done]. unfold Encoder_encode. rewrite utf8_encode_ascii; [done|].
  cbn [str_tuple repr]. apply Forall_app_2; [repeat constructor; done|].
  apply Forall_app_2; [apply repr_bytes_ascii | repeat constructor; done].
Qed.

(* ===================================================================== *)
(** ** Facts about the client and the server *)
(* ===================================================================== *)

Lemma encode_next_uuid w : Encoder_encode (VStr (next_uuid w)) = Ok (next_key w).
Proof.
  unfold Encoder_encode, next_key, next_uuid.
  now rewrite utf8_encode_ascii by apply str_of_uuid_ascii.
Qed.

Lemma length_next_key w : String.length (next_key w) = 36.
Proof.
  unfold next_key, next_uuid. rewrite length_ascii_bytes.
  apply length_str_of_uuid.
Qed.

Lemma next_key_fresh w :
  next_key w <> COUNT_KEY /\ next_key w <> IN_KEY /\ next_key w <> OUT_KEY.
Proof.
  repeat split; intros H; apply (f_equal String.length) in H;
    rewrite length_next_key in H; discriminate.
Qed.

Lemma rpush_Ok name val w n w' :
  rpush RedisClient name val w = (Ok n, w') ->
  exists k v l,
    Encoder_encode (VStr name) = Ok k /\ Encoder_encode val = Ok v /\
    history (db w) k = Some l /\
    w' = with_db (insert k (RList (l ++ [v]))) (sent (RPUSH k v) w).
Proof.
  unfold rpush, on_client, bind, lift, history.
  destruct (Encoder_encode (VStr name)) as [k|]; [|done].
  destruct (Encoder_encode val) as [v|]; [|done]. simpl.
  destruct (db w !! k) as [[b|l]|] eqn:E; [done | |]; intros [= <- <-].
  - exists k, v, l. rewrite E. done.
  - exists k, v, []. rewrite E. done.
Qed.

Lemma incr_Ok name w z w' :
  incr RedisClient name w = (Ok z, w') ->
  exists k c,
    Encoder_encode (VStr name) = Ok k /\ counter (db w) k = Some c /\
    z = (c + 1)%Z /\
    w' = with_db (insert k (RString (decimal (c + 1)))) (sent (INCRBY k 1) w).
Proof.
  unfold incr, on_client, bind, lift.
  destruct (Encoder_encode (VStr name)) as [k|]; [|done]. simpl.
  destruct (db w !! k) as [[b|l]|] eqn:E; [ | done | ].
  - destruct (string2ll b) as [c|] eqn:Eb; [|done].
    destruct (c =? LLONG_MAX)%Z; [done|]. intros [= <- <-].
    apply string2ll_Some in Eb. subst b.
    exists k, c. rewrite (counter_decimal _ _ _ E). done.
  - intros [= <- <-]. exists k, 0%Z. unfold counter. rewrite E. done.
Qed.

Lemma set_Ok name val w x w' :
  set RedisClient name val w = (Ok x, w') ->
  exists k v,
    Encoder_encode (VStr name) = Ok k /\ Encoder_encode val = Ok v /\
    w' = with_db (insert k (RString v)) (sent (SET k v) w).
Proof.
  unfold set, on_client, bind, lift.
  destruct (Encoder_encode (VStr name)) as [k|]; [|done].
  destruct (Encoder_encode val) as [v|]; [|done]. simpl.
  intros [= <-]. eauto.
Qed.

(** The reply of GET and the untouched database. *)
Lemma get_run name w k :
  Encoder_encode (VStr name) = Ok k ->
  get RedisClient name w =
    (match db w !! k with
     | None => Ok None
     | Some (RString b) => Ok (Some b)
     | Some (RList _) => Raise WRONGTYPE
     end, sent (GET k) w).
Proof.
  intros E. unfold get, on_client, bind, lift. rewrite E. simpl.
  now destruct (db w !! k) as [[|]|].
Qed.

Lemma range_all l : range l 0 (-1) = l.
Proof.
  unfold range. simpl.
  set (stop := Z.min (Z.of_nat (length l) + -1) (Z.of_nat (length l) - 1)).
  assert (stop = Z.of_nat (length l) - 1)%Z as -> by (unfold stop; lia).
  destruct (Z.ltb_spec (Z.of_nat (length l) - 1) 0).
  - destruct l; [done | simpl length in *; lia].
  - replace (Z.to_nat (Z.of_nat (length l) - 1 - 0 + 1)) with (length l) by lia.
    simpl. apply firstn_all.
Qed.

Lemma lrange_run name w k :
  Encoder_encode (VStr name) = Ok k ->
  lrange RedisClient name 0 (-1) w =
    (match history (db w) k with
     | Some l => Ok l
     | None => Raise WRONGTYPE
     end, sent (LRANGE k 0 (-1)) w).
Proof.
  intros E. unfold lrange, on_client, bind, lift, history. rewrite E. simpl.
  destruct (db w !! k) as [[|l]|]; [done | | done]. now rewrite range_all.
Qed.

(* ===================================================================== *)
(** ** Facts about [Cache.store] *)
(* ===================================================================== *)

(** Splits a successful run of a sequence into the runs of its parts. *)
Ltac split_run H :=
  repeat match type of H with
  | bind _ _ _ = (Ok _, _) =>
      let a := fresh "a" in let w := fresh "w" in let H1 := fresh "H" in
      apply bind_Ok in H as (a & w & H1 & H); split_run H1
  | ret _ _ = (Ok _, _) => unfold ret in H; injection H as <- <-
  end.

Section StoreFacts.

Variable isprintable : N -> bool.

Lemma store_needs_client self data w :
  _redis self = NoClient ->
  fst (store isprintable self data w) = Raise AttributeError.
Proof. destruct self as [h]. simpl. intros ->. reflexivity. Qed.

Lemma store_Ok self data w key w' :
  store isprintable self data w = (Ok key, w') ->
  _redis self = RedisClient /\
  exists a v li c lo,
    Encoder_encode (VStr (str_tuple isprintable [data])) = Ok a /\
    Encoder_encode data = Ok v /\
    history (db w) IN_KEY = Some li /\
    counter (db w) COUNT_KEY = Some c /\
    history (db w) OUT_KEY = Some lo /\
    key = VStr (next_uuid w) /\
    db w' = <[OUT_KEY := RList (lo ++ [next_key w])]>
              (<[next_key w := RString v]>
                 (<[COUNT_KEY := RString (decimal (c + 1))]>
                    (<[IN_KEY := RList (li ++ [a])]> (db w)))) /\
    log w' = log w ++ store_commands w a v /\
    urandom w' = urandom w /\ drawn w' = S (drawn w) /\ stdout w' = stdout w.
Proof.
  destruct self as [[|]]; [|discriminate].
  unfold store, Cache_store, call_history, count_calls, wraps.
  cbn [__call__ __qualname__ _redis isinstance_Redis Cache_store_body store_data].
  intros H. split; [done|].
  split_run H.
  apply rpush_Ok in H1 as (k1 & a & li & Ek1 & Ea & Hli & ->).
  apply incr_Ok in H3 as (k2 & c & Ek2 & Hc & _ & ->).
  unfold uuid4 in H2. injection H2 as <- <-.
  apply set_Ok in H4 as (k3 & v & Ek3 & Ev & ->).
  apply rpush_Ok in H5 as (k4 & o & lo & Ek4 & Eo & Hlo & ->).
  vm_compute in Ek1, Ek2, Ek4. injection Ek1 as <-. injection Ek2 as <-.
  injection Ek4 as <-.
  change (Encoder_encode (VStr (next_uuid w)) = Ok k3) in Ek3.
  change (Encoder_encode (VStr (next_uuid w)) = Ok o) in Eo.
  rewrite encode_next_uuid in Ek3, Eo. injection Ek3 as <-. injection Eo as <-.
  destruct (next_key_fresh w) as (F1 & F2 & F3).
  change "Cache.store:inputs" with IN_KEY in *.
  change "Cache.store:outputs" with OUT_KEY in *.
  change "Cache.store" with COUNT_KEY in *.
  exists a, v, li, c, lo.
  unfold counter in Hc. unfold history in Hlo.
  cbn [db log urandom drawn stdout with_db sent] in *.
  rewrite lookup_insert_ne in Hc by done.
  rewrite !lookup_insert_ne in Hlo by done.
  repeat split; try done.
  unfold store_commands. now rewrite <- !app_assoc.
Qed.
End StoreFacts.

Lemma rpush_Raise name val w e w' :
  rpush RedisClient name val w = (Raise e, w') ->
  w' = w \/
  exists k v,
    Encoder_encode (VStr name) = Ok k /\ Encoder_encode val = Ok v /\
    w' = sent (RPUSH k v) w.
Proof.
  unfold rpush, on_client, bind, lift.
  destruct (Encoder_encode (VStr name)) as [k|]; [|intros [= _ <-]; now left].
  destruct (Encoder_encode val) as [v|]; [|intros [= _ <-]; now left]. simpl.
  destruct (db w !! k) as [[b|l]|]; [|done..]. intros [= _ <-]. right. eauto.
Qed.

Lemma incr_Raise name w e w' :
  incr RedisClient name w = (Raise e, w') ->
  w' = w \/
  exists k, Encoder_encode (VStr name) = Ok k /\ w' = sent (INCRBY k 1) w.
Proof.
  unfold incr, on_client, bind, lift.
  destruct (Encoder_encode (VStr name)) as [k|]; [|intros [= _ <-]; now left].
  simpl. destruct (db w !! k) as [[b|l]|]; [| |done].
  - destruct (string2ll b) as [c|]; [destruct (c =? LLONG_MAX)%Z; [|done]|];
      intros [= _ <-]; right; eauto.
  - intros [= _ <-]. right. eauto.
Qed.

Lemma set_Raise name val w e w' :
  set RedisClient name val w = (Raise e, w') -> w' = w.
Proof.
  unfold set, on_client, bind, lift.
  destruct (Encoder_encode (VStr name)) as [k|]; [|now intros [= _ <-]].
  destruct (Encoder_encode val) as [v|]; [|now intros [= _ <-]]. done.
Qed.

Section StoreRuns.

Variable isprintable : N -> bool.

(** The names under which the decorators of [Cache.store] keep their
    books are the three keys. *)
Lemma store_keys :
  let name := __qualname__ (Cache_store isprintable) in
  Encoder_encode (VStr name) = Ok COUNT_KEY /\
  Encoder_encode (VStr (name ++ u ":inputs")) = Ok IN_KEY /\
  Encoder_encode (VStr (name ++ u ":outputs")) = Ok OUT_KEY.
Proof. repeat split. Qed.

(** One successful call moves the counter and both histories by one. *)
Lemma store_step self data w key w' :
  store isprintable self data w = (Ok key, w') ->
  exists a c li lo,
    counter (db w) COUNT_KEY = Some c /\
    history (db w) IN_KEY = Some li /\
    history (db w) OUT_KEY = Some lo /\
    counter (db w') COUNT_KEY = Some (c + 1)%Z /\
    history (db w') IN_KEY = Some (li ++ [a]) /\
    history (db w') OUT_KEY = Some (lo ++ [next_key w]).
Proof.
  intros H. apply store_Ok in H
    as (_ & a & v & li & c & lo & _ & _ & Hli & Hc & Hlo & _ & Hdb & _).
  destruct (next_key_fresh w) as (F1 & F2 & F3).
  exists a, c, li, lo. repeat split; try done.
  - apply counter_decimal. rewrite Hdb.
    rewrite !lookup_insert_ne by done. apply lookup_insert_eq.
  - unfold history. rewrite Hdb.
    rewrite !lookup_insert_ne by done. now rewrite lookup_insert_eq.
  - unfold history. rewrite Hdb. now rewrite lookup_insert_eq.
Qed.

Lemma store_all_counts self datas : forall w keys w',
  store_all isprintable self datas w = (Ok keys, w') ->
  forall c li lo,
    counter (db w) COUNT_KEY = Some c ->
    history (db w) IN_KEY = Some li ->
    history (db w) OUT_KEY = Some lo ->
    counter (db w') COUNT_KEY = Some (c + Z.of_nat (length datas))%Z /\
    exists li' lo',
      history (db w') IN_KEY = Some (li ++ li') /\
      history (db w') OUT_KEY = Some (lo ++ lo') /\
      length li' = length datas /\ length lo' = length datas.
Proof.
  induction datas as [|data rest IH]; intros w keys w' H c li lo Hc Hli Hlo.
  - injection H as <- <-. rewrite Z.add_0_r. split; [done|].
    exists [], []. now rewrite !app_nil_r.
  - cbn [store_all] in H.
    apply bind_Ok in H as (key & w1 & Hs & H).
    apply bind_Ok in H as (ks & w2 & Hr & H). injection H as <- <-.
    apply store_step in Hs
      as (a & c0 & li0 & lo0 & Hc0 & Hli0 & Hlo0 & Hc1 & Hli1 & Hlo1).
    assert (c0 = c) as -> by congruence.
    assert (li0 = li) as -> by congruence.
    assert (lo0 = lo) as -> by congruence.
    destruct (IH _ _ _ Hr _ _ _ Hc1 Hli1 Hlo1) as (Hc' & li' & lo' & Hli' & Hlo' & Ll & Lo).
    split.
    + rewrite Hc'. f_equal. simpl length. lia.
    + exists (a :: li'), (next_key w :: lo').
      rewrite <- !app_assoc in Hli', Hlo'. simpl in *. auto.
Qed.

End StoreRuns.

Lemma history_shelf m k l : m !! k = shelf l -> history m k = Some l.
Proof. unfold history. intros ->. now destruct l. Qed.

Lemma counter_tally m k n : m !! k = tally n -> counter m k = Some (Z.of_nat n).
Proof.
  destruct n as [|n]; simpl tally; intros H.
  - unfold counter. now rewrite H.
  - now apply counter_decimal.
Qed.

Lemma shelf_snoc l v : Some (RList (l ++ [v])) = shelf (l ++ [v]).
Proof. now destruct l. Qed.

Lemma rpush_run name val w k v l :
  Encoder_encode (VStr name) = Ok k -> Encoder_encode val = Ok v ->
  db w !! k = shelf l ->
  rpush RedisClient name val w =
    (Ok (Z.of_nat (length l) + 1)%Z,
     with_db (insert k (RList (l ++ [v]))) (sent (RPUSH k v) w)).
Proof.
  intros Ek Ev Hl. unfold rpush, on_client, bind, lift. rewrite Ek, Ev.
  cbn [db sent]. rewrite Hl. now destruct l.
Qed.

Lemma incr_run name w k n :
  Encoder_encode (VStr name) = Ok k ->
  db w !! k = tally n -> (Z.of_nat n < LLONG_MAX)%Z ->
  incr RedisClient name w =
    (Ok (Z.of_nat n + 1)%Z,
     with_db (insert k (RString (decimal (Z.of_nat (S n))))) (sent (INCRBY k 1) w)).
Proof.
  intros Ek Hn Hlt. unfold incr, on_client, bind, lift. rewrite Ek.
  cbn [db sent]. rewrite Hn. destruct n as [|n]; [done|]. cbn [tally].
  rewrite string2ll_decimal by (unfold LLONG_MIN, LLONG_MAX in *; lia).
  destruct (Z.eqb_spec (Z.of_nat (S n)) LLONG_MAX); [lia|].
  now replace (Z.of_nat (S (S n))) with (Z.of_nat (S n) + 1)%Z by lia.
Qed.

Lemma set_run name val w k v :
  Encoder_encode (VStr name) = Ok k -> Encoder_encode val = Ok v ->
  set RedisClient name val w =
    (Ok tt, with_db (insert k (RString v)) (sent (SET k v) w)).
Proof.
  intros Ek Ev. unfold set, on_client, bind, lift. now rewrite Ek, Ev.
Qed.

Section StoreSucceeds.

Variable isprintable : N -> bool.

(** A call of [store] on well-kept books returns, and leaves the books
    well kept with one more entry. *)
Lemma store_run data w inputs outputs a v :
  booked (db w) inputs outputs ->
  (Z.of_nat (length inputs) < LLONG_MAX)%Z ->
  Encoder_encode (VStr (str_tuple isprintable [data])) = Ok a ->
  Encoder_encode data = Ok v ->
  exists w',
    store isprintable live data w = (Ok (VStr (next_uuid w)), w') /\
    booked (db w') (inputs ++ [a]) (outputs ++ [next_key w]) /\
    stdout w' = stdout w.
Proof.
  intros (Hc & Hi & Ho & Hlen & _) Hlt Ea Ev.
  destruct (next_key_fresh w) as (F1 & F2 & F3).
  eexists. split; [|split].
  - unfold store, Cache_store, call_history, count_calls, wraps.
    cbn [__call__ __qualname__ _redis isinstance_Redis Cache_store_body
         store_data live].
    unfold bind at 1. unfold bind at 1.
    rewrite (rpush_run (u "Cache.store" ++ u ":inputs") _ w IN_KEY a inputs
               eq_refl Ea Hi).
    unfold ret at 1. unfold bind at 1. unfold bind at 1. unfold bind at 1.
    erewrite (incr_run (u "Cache.store") _ COUNT_KEY (length inputs) eq_refl); [|
      cbn [db with_db sent]; now rewrite lookup_insert_ne | done].
    unfold ret at 1. unfold bind at 1. unfold ret at 1.
    unfold bind at 1. unfold uuid4 at 1. unfold bind at 1.
    cbn [db log urandom drawn stdout with_db sent].
    change (str_of_uuid (uuid4_int (urandom w (drawn w)))) with (next_uuid w).
    rewrite (set_run _ _ _ (next_key w) v (encode_next_uuid w) Ev).
    unfold ret at 1. unfold bind at 1. unfold bind at 1.
    erewrite (rpush_run (u "Cache.store" ++ u ":outputs") _ _ OUT_KEY
                (next_key w) outputs eq_refl
                (encode_next_uuid w)); [|
      cbn [db with_db sent]; now rewrite !lookup_insert_ne by done].
    reflexivity.
  - unfold booked. cbn [db with_db sent]. rewrite !length_app. simpl length.
    repeat split.
    + rewrite !lookup_insert_ne by done. rewrite lookup_insert_eq.
      now rewrite Nat.add_1_r.
    + rewrite !lookup_insert_ne by done. rewrite lookup_insert_eq.
      apply shelf_snoc.
    + rewrite lookup_insert_eq. apply shelf_snoc.
    + lia.
    + lia.
  - reflexivity.
Qed.

End StoreSucceeds.

(** The outcome of each writing command of the client, case by case. *)
Lemma rpush_eq name val w k :
  Encoder_encode (VStr name) = Ok k ->
  rpush RedisClient name val w =
    match Encoder_encode val with
    | Raise e => (Raise e, w)
    | Ok v =>
        match history (db w) k with
        | Some l =>
            (Ok (Z.of_nat (length l) + 1)%Z,
             with_db (insert k (RList (l ++ [v]))) (sent (RPUSH k v) w))
        | None => (Raise WRONGTYPE, sent (RPUSH k v) w)
        end
    end.
Proof.
  intros Ek. unfold rpush, on_client, bind, lift, history. rewrite Ek.
  destruct (Encoder_encode val) as [v|e]; [|done].
  cbn [db sent]. now destruct (db w !! k) as [[b|l]|].
Qed.

Lemma incr_eq name w k :
  Encoder_encode (VStr name) = Ok k ->
  incr RedisClient name w =
    match stored_int (db w) k with
    | Some c =>
        if (c =? LLONG_MAX)%Z then (Raise OVERFLOW, sent (INCRBY k 1) w)
        else (Ok (c + 1)%Z,
              with_db (insert k (RString (decimal (c + 1)))) (sent (INCRBY k 1) w))
    | None =>
        (Raise match db w !! k with
               | Some (RList _) => WRONGTYPE
               | _ => NOT_AN_INTEGER
               end, sent (INCRBY k 1) w)
    end.
Proof.
  intros Ek. unfold incr, on_client, bind, lift, stored_int. rewrite Ek.
  cbn [db sent]. destruct (db w !! k) as [[b|l]|]; [|done..].
  now destruct (string2ll b).
Qed.

Lemma set_eq name val w k :
  Encoder_encode (VStr name) = Ok k ->
  set RedisClient name val w =
    match Encoder_encode val with
    | Raise e => (Raise e, w)
    | Ok v => (Ok tt, with_db (insert k (RString v)) (sent (SET k v) w))
    end.
Proof.
  intros Ek. unfold set, on_client, bind, lift. rewrite Ek.
  now destruct (Encoder_encode val).
Qed.

Section StoreOutcome.

Variable isprintable : N -> bool.

(** One call of [store] on a live client, step by step: each step is
    taken only when the one before it went through. *)
Lemma store_eq data w :
  store isprintable live data w =
    match Encoder_encode (VStr (str_tuple isprintable [data])) with
    | Raise e => (Raise e, w)
    | Ok a =>
      let w1 := sent (RPUSH IN_KEY a) w in
      match history (db w) IN_KEY with
      | None => (Raise WRONGTYPE, w1)
      | Some li =>
        let w2 := sent (INCRBY COUNT_KEY 1)
                    (with_db (insert IN_KEY (RList (li ++ [a]))) w1) in
        match stored_int (db w) COUNT_KEY with
        | None =>
            (Raise match db w !! COUNT_KEY with
                   | Some (RList _) => WRONGTYPE
                   | _ => NOT_AN_INTEGER
                   end, w2)
        | Some c =>
          if (c =? LLONG_MAX)%Z then (Raise OVERFLOW, w2)
          else
            let w3 := with_db (insert COUNT_KEY (RString (decimal (c + 1)))) w2 in
            let w3 := World (db w3) (log w3) (urandom w3) (S (drawn w3)) (stdout w3) in
            match Encoder_encode data with
            | Raise e => (Raise e, w3)
            | Ok v =>
              let w4 := sent (RPUSH OUT_KEY (next_key w))
                          (with_db (insert (next_key w) (RString v))
                             (sent (SET (next_key w) v) w3)) in
              match history (db w) OUT_KEY with
              | None => (Raise WRONGTYPE, w4)
              | Some lo =>
                  (Ok (VStr (next_uuid w)),
                   with_db (insert OUT_KEY (RList (lo ++ [next_key w]))) w4)
              end
            end
        end
      end
    end.
Proof.
  destruct (next_key_fresh w) as (F1 & F2 & F3).
  unfold store, Cache_store, call_history, count_calls, wraps.
  cbn [__call__ __qualname__ _redis isinstance_Redis Cache_store_body
       store_data live].
  unfold bind at 1. unfold bind at 1.
  rewrite (rpush_eq (u "Cache.store" ++ u ":inputs") _ w IN_KEY eq_refl).
  destruct (Encoder_encode (VStr (str_tuple isprintable [data]))) as [a|e];
    [|reflexivity].
  destruct (history (db w) IN_KEY) as [li|] eqn:Hli; [|reflexivity].
  unfold ret at 1. unfold bind at 1. unfold bind at 1. unfold bind at 1.
  rewrite (incr_eq (u "Cache.store") _ COUNT_KEY eq_refl).
  assert (stored_int (db (with_db (insert IN_KEY (RList (li ++ [a])))
                            (sent (RPUSH IN_KEY a) w))) COUNT_KEY
          = stored_int (db w) COUNT_KEY) as ->.
  { unfold stored_int. cbn [db with_db sent]. now rewrite lookup_insert_ne. }
  destruct (stored_int (db w) COUNT_KEY) as [c|] eqn:Hc.
  2:{ cbn [db with_db sent]. now rewrite lookup_insert_ne. }
  destruct (c =? LLONG_MAX)%Z; [reflexivity|].
  unfold ret at 1. unfold bind at 1. unfold ret at 1.
  unfold bind at 1. unfold uuid4 at 1. unfold bind at 1.
  cbn [db log urandom drawn stdout with_db sent].
  change (str_of_uuid (uuid4_int (urandom w (drawn w)))) with (next_uuid w).
  rewrite (set_eq _ _ _ (next_key w) (encode_next_uuid w)).
  destruct (Encoder_encode data) as [v|e]; [|reflexivity].
  unfold ret at 1. unfold bind at 1. unfold bind at 1.
  rewrite (rpush_eq (u "Cache.store" ++ u ":outputs") _ _ OUT_KEY eq_refl).
  rewrite encode_next_uuid.
  match goal with |- context [history (db ?x) OUT_KEY] =>
    assert (history (db x) OUT_KEY = history (db w) OUT_KEY) as ->
  end.
  { unfold history. cbn [db with_db sent]. now rewrite !lookup_insert_ne by done. }
  now destruct (history (db w) OUT_KEY).
Qed.

End StoreOutcome.

(* ===================================================================== *)
(** ** Facts about the getters *)
(* ===================================================================== *)

Lemma Cache_get_absent self key fn w k :
  _redis self = RedisClient ->
  Encoder_encode (VStr key) = Ok k ->
  db w !! k = None ->
  Cache_get self key fn w =
    match fn with
    | Some f => f None (sent (GET k) w)
    | None => (Ok VNone, sent (GET k) w)
    end.
Proof.
  intros Hl Ek Hk. unfold Cache_get. rewrite Hl.
  rewrite (bind_eq_Ok _ _ _ None (sent (GET k) w)).
  - now destruct fn.
  - rewrite (get_run _ _ _ Ek), Hk. done.
Qed.

Lemma Cache_get_present self key fn w k b :
  _redis self = RedisClient ->
  Encoder_encode (VStr key) = Ok k ->
  db w !! k = Some (RString b) ->
  Cache_get self key fn w =
    match fn with
    | Some f => f (Some b) (sent (GET k) w)
    | None => (Ok (VBytes b), sent (GET k) w)
    end.
Proof.
  intros Hl Ek Hk. unfold Cache_get. rewrite Hl.
  rewrite (bind_eq_Ok _ _ _ (Some b) (sent (GET k) w)).
  - now destruct fn.
  - rewrite (get_run _ _ _ Ek), Hk. done.
Qed.

Lemma reads_only_refl w : reads_only w w.
Proof. split; [done|]. exists []. now rewrite app_nil_r. Qed.

Lemma reads_only_trans w1 w2 w3 :
  reads_only w1 w2 -> reads_only w2 w3 -> reads_only w1 w3.
Proof.
  intros [D1 (c1 & L1 & F1)] [D2 (c2 & L2 & F2)]. split; [congruence|].
  exists (c1 ++ c2). rewrite L2, L1, app_assoc. split; [done|].
  now apply Forall_app.
Qed.

(** GET changes nothing in the database and sends at most itself. *)
Lemma get_reads_only h name w : reads_only w (snd (get h name w)).
Proof.
  destruct h; [|apply reads_only_refl].
  unfold get, on_client, bind, lift.
  destruct (Encoder_encode (VStr name)) as [k|]; [|apply reads_only_refl].
  assert (reads_only w (sent (GET k) w)) as Hr.
  { split; [done|]. exists [GET k]. split; [done|]. now repeat constructor. }
  simpl. now destruct (db w !! k) as [[|]|].
Qed.

(** A decode function that leaves the world alone adds nothing to what
    [get] itself does. *)
Lemma Cache_get_world self key fn w :
  (forall f, fn = Some f -> forall x w0, snd (f x w0) = w0) ->
  snd (Cache_get self key fn w) = snd (get (_redis self) key w).
Proof.
  intros Hf. unfold Cache_get, bind.
  destruct (get (_redis self) key w) as [[data|e] w1]; [|done].
  destruct fn as [f|]; [|done]. now apply Hf.
Qed.

Lemma lambda_decode_world x w : snd (lambda_decode x w) = w.
Proof.
  destruct x as [b|]; [|done]. unfold lambda_decode, decode_utf8, bind.
  now destruct (utf8_decode b).
Qed.

Lemma lambda_int_world x w : snd (lambda_int x w) = w.
Proof.
  destruct x as [b|]; [|done]. unfold lambda_int, int_bytes, bind.
  now destruct (int_of_bytes b).
Qed.

Lemma run_read_reads_only self r w : reads_only w (snd (run_read self r w)).
Proof.
  destruct r as [key fn|key|key]; simpl;
    unfold Cache_get_str, Cache_get_int; rewrite Cache_get_world;
    try apply get_reads_only.
  - intros f Hf x w0. destruct fn as [g|]; [|done]. now injection Hf as <-.
  - intros f [= <-]. apply lambda_decode_world.
  - intros f [= <-]. apply lambda_int_world.
Qed.

(* ===================================================================== *)
(** ** Facts about [replay] *)
(* ===================================================================== *)

Lemma encode_suffix name k suffix :
  Encoder_encode (VStr name) = Ok k ->
  Encoder_encode (VStr (name ++ u suffix)) =
    match utf8_encode (u suffix) with
    | Some s => Ok (k +:+ s)
    | None => Raise UnicodeEncodeError
    end.
Proof.
  unfold Encoder_encode. rewrite utf8_encode_app.
  destruct (utf8_encode name) as [k0|]; [|done]. intros [= <-].
  now destruct (utf8_encode (u suffix)).
Qed.

Lemma printed_nil w : printed [] w = w.
Proof. destruct w. unfold printed. simpl. now rewrite app_nil_r. Qed.

Lemma printed_cons line lines w :
  printed lines (printed [line] w) = printed (line :: lines) w.
Proof. unfold printed. simpl. now rewrite <- app_assoc. Qed.

(** The loop of [replay] prints one line per pair, in order. *)
Lemma replay_loop name inputs texts :
  decoded inputs texts ->
  forall outputs w,
    for_each (combine inputs outputs) (fun '(fxn_input, fxn_output) =>
      input_text <- decode_utf8 fxn_input ;;
      print (name ++ u "(*" ++ input_text ++ u ") -> " ++ repr_bytes fxn_output)) w
    = (Ok tt, printed (zip_with (entry_line name) texts outputs) w).
Proof.
  induction 1 as [|b t inputs texts Hb _ IH]; intros outputs w.
  - simpl. now rewrite printed_nil.
  - destruct outputs as [|o outputs]; simpl; [now rewrite printed_nil|].
    unfold bind at 1. unfold bind at 1. unfold decode_utf8. rewrite Hb.
    unfold ret at 1. unfold print at 1.
    rewrite IH. now rewrite <- printed_cons.
Qed.


(** A run of [replay] on well-formed books: the commands it sends and
    the lines it prints. *)
Lemma replay_run self m k n inputs outputs texts w :
  getattr_redis self = RedisClient ->
  Encoder_encode (VStr (__qualname__ m)) = Ok k ->
  counter (db w) k = Some n ->
  history (db w) (k +:+ ":inputs") = Some inputs ->
  history (db w) (k +:+ ":outputs") = Some outputs ->
  decoded inputs texts ->
  replay (BoundMethod self m) w =
    (Ok tt,
     printed (zip_with (entry_line (__qualname__ m)) texts outputs)
       (sent (LRANGE (k +:+ ":outputs") 0 (-1))
          (sent (LRANGE (k +:+ ":inputs") 0 (-1))
             (printed [summary_line (__qualname__ m) n]
                (sent (GET k) w))))).
Proof.
  intros Hl Ek Hn Hin Hout Hd.
  pose proof (encode_suffix _ _ ":inputs" Ek) as Eki.
  pose proof (encode_suffix _ _ ":outputs" Ek) as Eko.
  change (utf8_encode (u ":inputs")) with (Some ":inputs") in Eki.
  change (utf8_encode (u ":outputs")) with (Some ":outputs") in Eko.
  cbn iota in Eki, Eko.
  unfold replay. rewrite Hl. cbn [isinstance_Redis negb].
  unfold bind at 1. rewrite (get_run _ _ _ Ek).
  assert (exists reply,
    match db w !! k with
    | Some (RString b) => Ok (Some b)
    | Some (RList _) => Raise WRONGTYPE
    | None => Ok None
    end = Ok reply /\ forall w0, int_or_0 reply w0 = (Ok n, w0))
    as (reply & -> & Hr).
  { unfold counter in Hn. destruct (db w !! k) as [[b|l]|]; [ | done | ].
    - exists (Some b). split; [done|]. intros w0.
      destruct b as [|a b]; [now injection Hn as <-|].
      unfold int_or_0, int_bytes. now rewrite Hn.
    - exists None. split; [done|]. intros w0. now injection Hn as <-. }
  unfold bind at 1. rewrite Hr.
  unfold bind at 1. unfold print at 1.
  unfold bind at 1. rewrite (lrange_run _ _ _ Eki).
  cbn [db log urandom drawn stdout with_db sent]. rewrite Hin.
  unfold bind at 1. rewrite (lrange_run _ _ _ Eko).
  cbn [db log urandom drawn stdout with_db sent]. rewrite Hout.
  now rewrite (replay_loop _ _ _ Hd).
Qed.

(** What [replay] prints is only ever added to. *)
Lemma appends_ret {A} (a : A) : appends (ret a).
Proof. intros w. exists []. now rewrite app_nil_r. Qed.

Lemma appends_raise {A} e : appends (@raise A e).
Proof. intros w. exists []. now rewrite app_nil_r. Qed.

Lemma appends_bind {A B} (m : M A) (k : A -> M B) :
  appends m -> (forall a, appends (k a)) -> appends (bind m k).
Proof.
  intros Hm Hk w. unfold bind. destruct (Hm w) as (l1 & H1).
  destruct (m w) as [[a|e] w1]; cbn [snd] in *; [|eauto].
  destruct (Hk a w1) as (l2 & H2). exists (l1 ++ l2).
  now rewrite H2, H1, app_assoc.
Qed.

Lemma appends_print line : appends (print line).
Proof. intros w. now exists [line]. Qed.

Lemma appends_reader {A} (m : M A) :
  (forall w, stdout (snd (m w)) = stdout w) -> appends m.
Proof. intros H w. exists []. now rewrite app_nil_r. Qed.

Lemma lrange_stdout h name start stop w :
  stdout (snd (lrange h name start stop w)) = stdout w.
Proof.
  destruct h; [|done]. unfold lrange, on_client, bind, lift.
  destruct (Encoder_encode (VStr name)) as [k|]; [|done]. simpl.
  now destruct (db w !! k) as [[|]|].
Qed.

Lemma appends_for_each {A} (l : list A) (body : A -> M unit) :
  (forall x, appends (body x)) -> appends (for_each l body).
Proof.
  intros Hb. induction l as [|x l IH]; simpl.
  - apply appends_ret.
  - apply appends_bind; [apply Hb | intros _; apply IH].
Qed.

Lemma appends_decode_utf8 b : appends (decode_utf8 b).
Proof.
  unfold decode_utf8.
  destruct (utf8_decode b); [apply appends_ret | apply appends_raise].
Qed.

Lemma int_or_0_world reply w : snd (int_or_0 reply w) = w.
Proof.
  destruct reply as [[|a b]|]; try done.
  unfold int_or_0, int_bytes. now destruct (int_of_bytes _).
Qed.

(** What [replay] does with the reply to its first query: it raises
    on a counter it cannot read, and prints the summary line first
    otherwise. *)
Lemma replay_report name reply w :
  let report :=
    (fxn_call_count <- int_or_0 reply ;;
     print (name ++ u " was called " ++ u (decimal fxn_call_count)
              ++ u " times:") ;;
     fxn_inputs <- lrange RedisClient (name ++ u ":inputs") 0 (-1) ;;
     fxn_outputs <- lrange RedisClient (name ++ u ":outputs") 0 (-1) ;;
     for_each (combine fxn_inputs fxn_outputs) (fun '(fxn_input, fxn_output) =>
       input_text <- decode_utf8 fxn_input ;;
       print (name ++ u "(*" ++ input_text ++ u ") -> "
                ++ repr_bytes fxn_output))) in
  (exists e, fst (report w) = Raise e) \/
  (exists n lines,
     stdout (snd (report w)) = stdout w ++ summary_line name n :: lines).
Proof.
  intros report.
  pose proof (int_or_0_world reply w) as Hw.
  destruct (int_or_0 reply w) as [[n|e] w1] eqn:Hi; cbn [snd] in Hw; subst w1.
  - right. exists n. unfold report. rewrite (bind_eq_Ok _ _ _ _ _ Hi).
    unfold bind at 1. unfold print at 1.
    match goal with |- context [snd (bind ?m ?k ?w1)] =>
      assert (appends (bind m k)) as Ha; [|destruct (Ha w1) as (lines & ->)]
    end.
    { apply appends_bind; [apply appends_reader, lrange_stdout | intros ins].
      apply appends_bind; [apply appends_reader, lrange_stdout | intros outs].
      apply appends_for_each. intros [i o].
      apply appends_bind; [apply appends_decode_utf8 | intros t; apply appends_print]. }
    exists lines. cbn [stdout]. now rewrite <- app_assoc.
  - left. exists e. unfold report. unfold bind at 1. now rewrite Hi.
Qed.

(** On a method bound to a receiver with a live client, [replay]
    raises or prints at least its summary line. *)
Lemma replay_live self m w :
  getattr_redis self = RedisClient ->
  (exists e, fst (replay (BoundMethod self m) w) = Raise e) \/
  (exists n lines,
     stdout (snd (replay (BoundMethod self m) w))
       = stdout w ++ summary_line (__qualname__ m) n :: lines).
Proof.
  intros Hl. remember (replay (BoundMethod self m) w) as run eqn:Hrun.
  unfold replay in Hrun. rewrite Hl in Hrun. cbn [isinstance_Redis negb] in Hrun.
  unfold bind at 1 in Hrun.
  destruct (Encoder_encode (VStr (__qualname__ m))) as [k|e] eqn:Ek.
  2:{ left. exists e. subst run. unfold get, on_client, bind, lift.
      now rewrite Ek. }
  rewrite (get_run _ _ _ Ek) in Hrun.
  destruct (db w !! k) as [[b|l]|]; subst run.
  - apply (replay_report (__qualname__ m) (Some b) (sent (GET k) w)).
  - left. now exists WRONGTYPE.
  - apply (replay_report (__qualname__ m) None (sent (GET k) w)).
Qed.

(* ===================================================================== *)
(** ** The properties of the module *)
(* ===================================================================== *)

(** C1, as amended.  [get] on the key returned by [store(data)], with
    no decode function, returns the bytes the client wrote for [data]:
    [data] itself when it is a [bytes] object, the UTF-8 encoding of a
    [str], the decimal text of an [int], the [repr] text of a [float]. *)
Theorem store_then_get (isprintable : N -> bool) self data key w w1 :
  store isprintable self data w = (Ok (VStr key), w1) ->
  exists b,
    fst (Cache_get self key None w1) = Ok (VBytes b) /\
    match data with
    | VBytes b0 => b = b0
    | VStr s => utf8_encode s = Some b
    | VInt z => b = decimal z
    | VFloat r => utf8_encode (u r) = Some b
    | VNone => False
    end.
Proof.
  intros H. apply store_Ok in H
    as (Hl & a & v & li & c & lo & _ & Ev & _ & _ & _ & Hk & Hdb & _).
  injection Hk as ->. exists v. split.
  - rewrite (Cache_get_present self _ None w1 (next_key w) v Hl
               (encode_next_uuid w)); [done|].
    destruct (next_key_fresh w) as (_ & _ & F).
    rewrite Hdb, lookup_insert_ne by done. apply lookup_insert_eq.
  - destruct data as [|s|b|z|r]; [done | | simpl in Ev; congruence | |].
    + simpl in Ev. destruct (utf8_encode s); congruence.
    + rewrite encode_int in Ev. congruence.
    + simpl in Ev. destruct (utf8_encode (u r)); congruence.
Qed.

(** C1 at a [bytes] value: the round trip is the identity there. *)
Lemma store_then_get_witness :
  exists b,
    fst (Cache_get live (next_uuid example_world) None
           (snd (store ascii_printable live (VBytes "hello") example_world)))
      = Ok (VBytes b) /\
    b = "hello".
Proof.
  apply (store_then_get ascii_printable live (VBytes "hello")
           (next_uuid example_world) example_world).
  vm_compute. reflexivity.
Defined.

(** C1 as stated fails on a [str]: what comes back is a [bytes] object,
    not the [str] that was stored. *)
Lemma store_then_get_str_differs :
  let '(r, w1) := store ascii_printable live (VStr (u "hello")) example_world in
  r = Ok (VStr (u "00000000-0000-4000-8000-000000000000")) /\
  fst (Cache_get live (u "00000000-0000-4000-8000-000000000000") None w1)
    = Ok (VBytes "hello") /\
  fst (Cache_get live (u "00000000-0000-4000-8000-000000000000") None w1)
    <> Ok (VStr (u "hello")).
Proof. vm_compute. repeat split. discriminate. Qed.

(** C2, as amended.  On a key absent from the store, [get] with no
    decode function returns [None] and does not raise; [get_str] and
    [get_int] do not skip their decode function: it is applied to [None]
    and its error reaches the caller ([AttributeError] for [get_str],
    [TypeError] for [get_int]). *)
Theorem getters_on_absent_key self key k w :
  _redis self = RedisClient ->
  Encoder_encode (VStr key) = Ok k ->
  db w !! k = None ->
  fst (Cache_get self key None w) = Ok VNone /\
  fst (Cache_get_str self key w) = Raise AttributeError /\
  fst (Cache_get_int self key w) = Raise TypeError.
Proof.
  intros Hl Ek Hk. unfold Cache_get_str, Cache_get_int.
  now rewrite !(Cache_get_absent self key _ w k Hl Ek Hk).
Qed.

Lemma getters_on_absent_key_witness :
  fst (Cache_get live (u "missing") None example_world) = Ok VNone /\
  fst (Cache_get_str live (u "missing") example_world) = Raise AttributeError /\
  fst (Cache_get_int live (u "missing") example_world) = Raise TypeError.
Proof.
  apply (getters_on_absent_key live (u "missing") "missing" example_world);
    reflexivity.
Defined.

(** C2 as stated fails: on an absent key [get_str] and [get_int] raise
    instead of returning [None]. *)
Lemma typed_getters_raise_on_absent_key :
  db example_world !! "missing" = None /\
  fst (Cache_get_str live (u "missing") example_world) = Raise AttributeError /\
  fst (Cache_get_int live (u "missing") example_world) = Raise TypeError /\
  fst (Cache_get_str live (u "missing") example_world) <> Ok VNone /\
  fst (Cache_get_int live (u "missing") example_world) <> Ok VNone.
Proof. vm_compute. repeat split; discriminate. Qed.

(** C3.  After [Cache()] and N successful calls of [store], the call
    counter kept under the qualified name of [store] reads N, and the
    input history and the output history each hold N entries. *)
Theorem counts_after_calls (isprintable : N -> bool) datas w keys w' :
  (self <- Cache__init__ ;; store_all isprintable self datas) w = (Ok keys, w') ->
  counter (db w') COUNT_KEY = Some (Z.of_nat (length datas)) /\
  length <$> history (db w') IN_KEY = Some (length datas) /\
  length <$> history (db w') OUT_KEY = Some (length datas).
Proof.
  intros H. apply bind_Ok in H as (self & w0 & Hi & H).
  injection Hi as <- <-.
  destruct (store_all_counts isprintable _ _ _ _ _ H 0%Z [] [])
    as (Hc & li & lo & Hli & Hlo & Ll & Lo); try done.
  rewrite Hc, Hli, Hlo. simpl. now rewrite Ll, Lo.
Qed.

(** C3 on three calls. *)
Lemma counts_after_calls_witness :
  let datas := [VStr (u "a"); VStr (u "b"); VStr (u "c")] in
  let run := (self <- Cache__init__ ;; store_all ascii_printable self datas)
               example_world in
  counter (db (snd run)) COUNT_KEY = Some 3%Z /\
  length <$> history (db (snd run)) IN_KEY = Some 3 /\
  length <$> history (db (snd run)) OUT_KEY = Some 3.
Proof.
  intros datas run.
  apply (counts_after_calls ascii_printable datas example_world
           (match fst run with Ok keys => keys | Raise _ => [] end) (snd run)).
  vm_compute. reflexivity.
Defined.




(** C5.  A call of [store] on a live client sends its commands in one
    fixed order: RPUSH of the argument tuple's text to the inputs
    list, INCRBY 1 on the counter, SET of the value under the fresh key,
    RPUSH of the key to the outputs list.
    - When the tuple's text and the value can be sent, the two history
      keys are unset or hold lists and the counter key is unset or
      holds a number below the server's largest, the call returns the
      fresh key, it has sent exactly these four commands in this order,
      and the database is the one before the call with the text
      appended to the list the inputs key held, the number the counter
      key held raised by one, the value under the fresh key and the
      key appended to the list the outputs key held.
    - The call returns in no other case.
    - Whatever the outcome, what was sent is a prefix of the four
      commands: a command is not sent after an earlier step raised. *)
Theorem store_effects_in_order (isprintable : N -> bool) self data w :
  _redis self = RedisClient ->
  (forall a v li c lo,
     Encoder_encode (VStr (str_tuple isprintable [data])) = Ok a ->
     Encoder_encode data = Ok v ->
     history (db w) IN_KEY = Some li ->
     stored_int (db w) COUNT_KEY = Some c -> (c < LLONG_MAX)%Z ->
     history (db w) OUT_KEY = Some lo ->
     fst (store isprintable self data w) = Ok (VStr (next_uuid w)) /\
     log (snd (store isprintable self data w))
       = log w ++ store_commands w a v /\
     db (snd (store isprintable self data w)) =
       <[OUT_KEY := RList (lo ++ [next_key w])]>
         (<[next_key w := RString v]>
            (<[COUNT_KEY := RString (decimal (c + 1))]>
               (<[IN_KEY := RList (li ++ [a])]> (db w))))) /\
  (forall key,
     fst (store isprintable self data w) = Ok key ->
     exists a v li c lo,
       Encoder_encode (VStr (str_tuple isprintable [data])) = Ok a /\
       Encoder_encode data = Ok v /\
       history (db w) IN_KEY = Some li /\
       stored_int (db w) COUNT_KEY = Some c /\ (c < LLONG_MAX)%Z /\
       history (db w) OUT_KEY = Some lo) /\
  (exists n a v,
     log (snd (store isprintable self data w))
       = log w ++ firstn n (store_commands w a v) /\
     (1 <= n -> Encoder_encode (VStr (str_tuple isprintable [data])) = Ok a) /\
     (3 <= n -> Encoder_encode data = Ok v)).
Proof.
  intros Hl. destruct self as [h]. simpl in Hl. subst h.
  change {| _redis := RedisClient |} with live.
  rewrite (store_eq isprintable data w). unfold store_commands.
  split; [|split].
  - intros a v li c lo -> -> -> -> Hc ->.
    destruct (Z.eqb_spec c LLONG_MAX) as [E|_]; [lia|].
    cbn [fst snd db log with_db sent]. rewrite <- !app_assoc.
    split; [reflexivity|]. split; reflexivity.
  - intros key.
    destruct (Encoder_encode (VStr (str_tuple isprintable [data]))) as [a|];
      [|discriminate].
    destruct (history (db w) IN_KEY) as [li|]; [|discriminate].
    destruct (stored_int (db w) COUNT_KEY) as [c|] eqn:Hc; [|discriminate].
    destruct (Z.eqb_spec c LLONG_MAX) as [E|N]; [discriminate|].
    destruct (Encoder_encode data) as [v|]; [|discriminate].
    destruct (history (db w) OUT_KEY) as [lo|]; [|discriminate].
    intros _. exists a, v, li, c, lo.
    assert (c <= LLONG_MAX)%Z.
    { clear - Hc. unfold stored_int in Hc.
      destruct (db w !! COUNT_KEY) as [[b|]|]; [| done |].
      - unfold string2ll in Hc.
        destruct (NilZero.int_of_string b); [|done].
        destruct (_ && _ && _)%bool eqn:E in Hc; [|done].
        injection Hc as <-. apply andb_prop in E as [_ E]. lia.
      - injection Hc as <-. done. }
    repeat split; try done. lia.
  - destruct (Encoder_encode (VStr (str_tuple isprintable [data]))) as [a|].
    2:{ exists 0, "", "". rewrite app_nil_r. repeat split; (done || lia). }
    destruct (history (db w) IN_KEY) as [li|].
    2:{ exists 1, a, "". repeat split; (done || lia). }
    destruct (stored_int (db w) COUNT_KEY) as [c|].
    2:{ exists 2, a, "". cbn [snd log sent with_db firstn].
        rewrite <- app_assoc. repeat split; (done || lia). }
    destruct (c =? LLONG_MAX)%Z.
    { exists 2, a, "". cbn [snd log sent with_db firstn].
      rewrite <- app_assoc. repeat split; (done || lia). }
    destruct (Encoder_encode data) as [v|].
    2:{ exists 2, a, "". cbn [snd log sent with_db firstn].
        rewrite <- app_assoc. repeat split; (done || lia). }
    exists 4, a, v.
    destruct (history (db w) OUT_KEY) as [lo|];
      cbn [snd log sent with_db firstn]; rewrite <- !app_assoc;
      repeat split; (done || lia).
Qed.

(** C5 on one call: the first call after [Cache()]. *)
Lemma store_effects_in_order_witness :
  fst (store ascii_printable live (VStr (u "a")) example_world)
    = Ok (VStr (u "00000000-0000-4000-8000-000000000000")) /\
  log (snd (store ascii_printable live (VStr (u "a")) example_world))
    = [ RPUSH "Cache.store:inputs" "('a',)";
        INCRBY "Cache.store" 1;
        SET "00000000-0000-4000-8000-000000000000" "a";
        RPUSH "Cache.store:outputs" "00000000-0000-4000-8000-000000000000" ] /\
  db (snd (store ascii_printable live (VStr (u "a")) example_world))
    = <["Cache.store:outputs" :=
          RList ["00000000-0000-4000-8000-000000000000"]]>
        (<["00000000-0000-4000-8000-000000000000" := RString "a"]>
           (<["Cache.store" := RString "1"]>
              (<["Cache.store:inputs" := RList ["('a',)"]]> ∅))).
Proof.
  destruct (store_effects_in_order ascii_printable live (VStr (u "a"))
              example_world eq_refl) as [H _].
  exact (H "('a',)" "a" [] 0%Z [] eq_refl eq_refl eq_refl eq_refl eq_refl eq_refl).
Defined.

(** C6.  For a method bound to a receiver with a live client, whose
    counter key is unset or holds a number and whose two history keys
    are unset or hold lists (the inputs being UTF-8 text), [replay]
    prints the summary line with the counter (0 when the key is unset)
    and then one line per pair of the zipped histories, in order: as many
    lines as the shorter list has entries. *)
Theorem replay_prints self m k n inputs outputs texts w :
  getattr_redis self = RedisClient ->
  Encoder_encode (VStr (__qualname__ m)) = Ok k ->
  counter (db w) k = Some n ->
  history (db w) (k +:+ ":inputs") = Some inputs ->
  history (db w) (k +:+ ":outputs") = Some outputs ->
  decoded inputs texts ->
  let lines := zip_with (entry_line (__qualname__ m)) texts outputs in
  fst (replay (BoundMethod self m) w) = Ok tt /\
  stdout (snd (replay (BoundMethod self m) w))
    = stdout w ++ summary_line (__qualname__ m) n :: lines /\
  length lines = Nat.min (length inputs) (length outputs) /\
  (db w !! k = None -> n = 0%Z) /\
  db (snd (replay (BoundMethod self m) w)) = db w.
Proof.
  intros Hl Ek Hn Hin Hout Hd lines.
  rewrite (replay_run self m k n inputs outputs texts w Hl Ek Hn Hin Hout Hd).
  cbn [fst snd printed stdout db sent]. rewrite <- app_assoc.
  split; [done|]. split; [done|]. split; [|split; [|done]].
  - unfold lines. rewrite length_zip_with. now rewrite (Forall2_length _ _ _ Hd).
  - intros E. unfold counter in Hn. rewrite E in Hn. congruence.
Qed.

(** C6 after three calls of [store]. *)
Lemma replay_prints_witness :
  let fn := BoundMethod (Instance live) (Cache_store ascii_printable) in
  let texts := [u "('a',)"; u "('b',)"; u "('c',)"] in
  let outputs := default [] (history (db three_stores) OUT_KEY) in
  let lines := zip_with (entry_line (u "Cache.store")) texts outputs in
  fst (replay fn three_stores) = Ok tt /\
  stdout (snd (replay fn three_stores))
    = stdout three_stores ++ summary_line (u "Cache.store") 3 :: lines /\
  length lines = Nat.min 3 (length outputs) /\
  (db three_stores !! "Cache.store" = None -> 3%Z = 0%Z) /\
  db (snd (replay fn three_stores)) = db three_stores.
Proof.
  intros fn texts outputs lines.
  apply (replay_prints (Instance live) (Cache_store ascii_printable)
           "Cache.store" 3 ["('a',)"; "('b',)"; "('c',)"] outputs texts
           three_stores).
  - reflexivity.
  - reflexivity.
  - vm_compute. reflexivity.
  - vm_compute. reflexivity.
  - vm_compute. reflexivity.
  - repeat constructor.
Defined.

(** C7, as amended.  On a falsy argument, on a function without receiver and on a
    method whose receiver holds no Redis client, [replay] returns
    normally, prints nothing and sends nothing: the world is unchanged.
    These are the only arguments on which it returns without printing:
    a method bound to a receiver with a live client is replayed whether
    a decorator wraps it or not, and for one whose three keys are unset
    (a method that was never instrumented) [replay] sends its three
    queries and prints the summary line with 0. *)
Theorem replay_silent fn w :
  (not_replayable fn = true -> replay fn w = (Ok tt, w)) /\
  (fst (replay fn w) = Ok tt -> stdout (snd (replay fn w)) = stdout w ->
   not_replayable fn = true) /\
  (forall self m k,
     fn = BoundMethod self m ->
     getattr_redis self = RedisClient ->
     Encoder_encode (VStr (__qualname__ m)) = Ok k ->
     db w !! k = None ->
     db w !! (k +:+ ":inputs") = None ->
     db w !! (k +:+ ":outputs") = None ->
     fst (replay fn w) = Ok tt /\
     stdout (snd (replay fn w)) = stdout w ++ [summary_line (__qualname__ m) 0] /\
     log (snd (replay fn w))
       = log w ++ [GET k; LRANGE (k +:+ ":inputs") 0 (-1);
                   LRANGE (k +:+ ":outputs") 0 (-1)]).
Proof.
  split; [|split].
  - destruct fn as [|m|self m]; simpl; [done | done |].
    now intros ->.
  - intros Hok Hout. destruct fn as [|m|self m]; [done | done |].
    unfold not_replayable.
    destruct (getattr_redis self) eqn:Hl; [exfalso | done].
    destruct (replay_live self m w Hl) as [(e & He) | (n & lines & Hp)].
    + congruence.
    + rewrite Hp in Hout. apply (f_equal length) in Hout.
      rewrite length_app in Hout. simpl in Hout. lia.
  - intros self m k -> Hl Ek Hc Hi Ho.
    rewrite (replay_run self m k 0 [] [] [] w Hl Ek).
    + cbn [fst snd printed stdout log sent zip_with].
      rewrite app_nil_r, <- !app_assoc. repeat split.
    + unfold counter. now rewrite Hc.
    + unfold history. now rewrite Hi.
    + unfold history. now rewrite Ho.
    + constructor.
Qed.

(** C7 on the three kinds of argument it lists, and on a method of a
    live [Cache] that no decorator wraps. *)
Lemma replay_silent_witness :
  replay Falsy example_world = (Ok tt, example_world) /\
  replay (Function Cache_store_body) example_world = (Ok tt, example_world) /\
  replay (BoundMethod Bare Cache_store_body) example_world
    = (Ok tt, example_world) /\
  replay (BoundMethod (Instance {| _redis := NoClient |}) Cache_store_body)
    example_world = (Ok tt, example_world) /\
  stdout (snd (replay (BoundMethod (Instance live) returns_None) example_world))
    = [summary_line (u "Cache.touch") 0].
Proof.
  refine (conj (proj1 (replay_silent Falsy example_world) eq_refl)
         (conj (proj1 (replay_silent (Function Cache_store_body)
                         example_world) eq_refl)
         (conj (proj1 (replay_silent (BoundMethod Bare Cache_store_body)
                         example_world) eq_refl)
         (conj (proj1 (replay_silent
                         (BoundMethod (Instance {| _redis := NoClient |})
                            Cache_store_body) example_world) eq_refl) _)))).
  apply (proj2 (proj2 (replay_silent
           (BoundMethod (Instance live) returns_None) example_world))
           (Instance live) returns_None "Cache.touch"); reflexivity.
Defined.

(** C7 as stated fails on a method of a live [Cache] that no decorator
    wraps, an argument that is not a reference to an instrumented
    operation: [replay] queries the store and prints a summary line
    with 0 calls. *)
Lemma replay_undecorated_method :
  let get_method := {| __qualname__ := u "Cache.get";
                       __call__ := fun _ _ _ => ret VNone |} in
  let run := replay (BoundMethod (Instance live) get_method) example_world in
  not_replayable (BoundMethod (Instance live) get_method) = false /\
  fst run = Ok tt /\
  map ascii_bytes (stdout (snd run)) = ["Cache.get was called 0 times:"] /\
  log (snd run) = [ GET "Cache.get"; LRANGE "Cache.get:inputs" 0 (-1);
                    LRANGE "Cache.get:outputs" 0 (-1) ].
Proof. vm_compute. repeat split. Qed.

(** C8.  Constructing a [Cache] succeeds and leaves the database empty,
    whatever it held before; so does a second construction after the
    first. *)
Theorem init_flushes w :
  fst (Cache__init__ w) = Ok live /\
  db (snd (Cache__init__ w)) = ∅ /\
  log (snd (Cache__init__ w)) = log w ++ [FLUSHDB] /\
  fst (Cache__init__ (snd (Cache__init__ w))) = Ok live /\
  db (snd (Cache__init__ (snd (Cache__init__ w)))) = ∅.
Proof. repeat split. Qed.

(** C9.  On a key that holds a string, [get] with no decode function
    returns the raw bytes; with a decode function, the outcome of [get]
    is the outcome of the decode function on the raw bytes, so an error
    it raises reaches the caller unchanged: [UnicodeDecodeError] from
    [get_str] on ill-formed UTF-8, [ValueError] from [get_int] on text
    that is not a number. *)
Theorem get_on_present_key self key k b w :
  _redis self = RedisClient ->
  Encoder_encode (VStr key) = Ok k ->
  db w !! k = Some (RString b) ->
  fst (Cache_get self key None w) = Ok (VBytes b) /\
  (forall fn e w',
     fn (Some b) (sent (GET k) w) = (Raise e, w') ->
     Cache_get self key (Some fn) w = (Raise e, w')) /\
  (utf8_decode b = None ->
     fst (Cache_get_str self key w) = Raise UnicodeDecodeError) /\
  (int_of_bytes b = None ->
     fst (Cache_get_int self key w) = Raise ValueError).
Proof.
  intros Hl Ek Hk. unfold Cache_get_str, Cache_get_int.
  rewrite !(Cache_get_present self key _ w k b Hl Ek Hk).
  repeat split.
  - intros fn e w' H. now rewrite (Cache_get_present self key _ w k b Hl Ek Hk).
  - intros H. unfold lambda_decode, decode_utf8, bind. now rewrite H.
  - intros H. unfold lambda_int, int_bytes, bind. now rewrite H.
Qed.

Lemma get_on_present_key_witness :
  let w := with_db (insert "k" (RString (String (byte 255) "x"))) example_world in
  fst (Cache_get live (u "k") None w) = Ok (VBytes (String (byte 255) "x")) /\
  Cache_get live (u "k") (Some (fun _ => raise ValueError)) w
    = (Raise ValueError, sent (GET "k") w) /\
  fst (Cache_get_str live (u "k") w) = Raise UnicodeDecodeError /\
  fst (Cache_get_int live (u "k") w) = Raise ValueError.
Proof.
  intros w.
  destruct (get_on_present_key live (u "k") "k" (String (byte 255) "x") w
              eq_refl eq_refl eq_refl) as (H1 & H2 & H3 & H4).
  refine (conj H1 (conj (H2 _ _ _ _) (conj (H3 _) (H4 _)))); reflexivity.
Defined.

(** C10.  Any number of calls of [get], [get_str] and [get_int], on
    present or absent keys, leave the database as it was: every stored
    value, every call counter and every history list is unchanged, and
    no writing command is sent. *)
Theorem reads_change_nothing self rs w :
  reads_only w (run_reads self rs w) /\
  forall k,
    db (run_reads self rs w) !! k = db w !! k /\
    counter (db (run_reads self rs w)) k = counter (db w) k /\
    history (db (run_reads self rs w)) k = history (db w) k.
Proof.
  assert (reads_only w (run_reads self rs w)) as H.
  { revert w. induction rs as [|r rs IH]; intros w; simpl.
    - apply reads_only_refl.
    - eapply reads_only_trans; [apply run_read_reads_only | apply IH]. }
  split; [done|]. destruct H as [-> _]. done.
Qed.

(* ===================================================================== *)
(** ** The scenarios of the specification *)
(* ===================================================================== *)

Section Scenario.

Variable isprintable : N -> bool.

Lemma store_all_run datas :
  Forall (fun d => exists a v, storable isprintable d a v) datas ->
  forall w inputs outputs,
    booked (db w) inputs outputs ->
    (Z.of_nat (length inputs + length datas) <= LLONG_MAX)%Z ->
    exists keys w' ins outs,
      store_all isprintable live datas w = (Ok keys, w') /\
      booked (db w') (inputs ++ ins) (outputs ++ outs) /\
      stdout w' = stdout w /\
      Forall2 (fun d a => Encoder_encode (VStr (str_tuple isprintable [d])) = Ok a)
        datas ins /\
      Forall2 (fun key o => Encoder_encode key = Ok o) keys outs.
Proof.
  induction 1 as [|d datas (a & v & Ea & Ev) _ IH]; intros w inputs outputs Hb Hn.
  - exists [], w, [], []. rewrite !app_nil_r.
    split; [done|]. split; [done|]. split; [done|]. split; constructor.
  - simpl length in Hn.
    destruct (store_run isprintable d w inputs outputs a v Hb) as (w1 & Hs & Hb1 & Ho1);
      [lia | done | done |].
    destruct (IH w1 _ _ Hb1) as (keys & w2 & ins & outs & Hr & Hb2 & Ho2 & Hi & Hk).
    { rewrite length_app. simpl length. lia. }
    exists (VStr (next_uuid w) :: keys), w2, (a :: ins), (next_key w :: outs).
    rewrite <- !app_assoc in Hb2.
    split; [|split; [exact Hb2 | split; [congruence | split]]].
    + cbn [store_all]. rewrite (bind_eq_Ok _ _ _ _ _ Hs).
      now rewrite (bind_eq_Ok _ _ _ _ _ Hr).
    + now constructor.
    + constructor; [apply encode_next_uuid | done].
Qed.

Lemma decoded_inputs datas ins :
  Forall2 (fun d a => Encoder_encode (VStr (str_tuple isprintable [d])) = Ok a)
    datas ins ->
  decoded ins (map (fun d => str_tuple isprintable [d]) datas).
Proof.
  induction 1 as [|d a datas ins Ha _ IH]; simpl; constructor; [|done].
  apply utf8_decode_encode. unfold Encoder_encode in Ha.
  destruct (utf8_encode _); congruence.
Qed.

(** X3.  After [Cache()] and N calls of [store] on values that can be
    stored, every call has returned and [replay] prints the summary
    line with N, then one line per call pairing the text of its argument
    tuple with the key it returned, in call order. *)
Theorem replay_after_stores datas w :
  Forall (fun d => exists a v, storable isprintable d a v) datas ->
  (Z.of_nat (length datas) <= LLONG_MAX)%Z ->
  exists keys outs w',
    store_and_replay isprintable datas w = (Ok keys, w') /\
    Forall2 (fun key o => Encoder_encode key = Ok o) keys outs /\
    stdout w' =
      stdout w ++
      summary_line (u "Cache.store") (Z.of_nat (length datas)) ::
      zip_with (entry_line (u "Cache.store"))
        (map (fun d => str_tuple isprintable [d]) datas) outs.
Proof.
  intros Hd Hn.
  destruct (store_all_run datas Hd (snd (Cache__init__ w)) [] [])
    as (keys & w1 & ins & outs & Hr & Hb & Ho & Hi & Hk).
  { unfold booked. simpl. rewrite !lookup_empty. now repeat split. }
  { simpl length. lia. }
  simpl app in Hb. destruct Hb as (Hc & Hin & Hout & Hlen & _).
  pose proof (Forall2_length _ _ _ Hi) as Li.
  pose proof (replay_run (Instance live) (Cache_store isprintable) COUNT_KEY
                (Z.of_nat (length datas)) ins outs
                (map (fun d => str_tuple isprintable [d]) datas) w1
                eq_refl eq_refl) as Hp.
  rewrite (counter_tally _ _ (length ins)), <- Li in Hp by done.
  specialize (Hp eq_refl (history_shelf _ _ _ Hin) (history_shelf _ _ _ Hout)
                (decoded_inputs _ _ Hi)).
  eexists keys, outs, _. split; [|split; [done|]].
  - unfold store_and_replay.
    rewrite (bind_eq_Ok _ _ w live (snd (Cache__init__ w)) eq_refl).
    rewrite (bind_eq_Ok _ _ _ _ _ Hr).
    now rewrite (bind_eq_Ok _ _ _ _ _ Hp).
  - cbn [stdout printed sent]. rewrite Ho, <- app_assoc. done.
Qed.


(** For every N up to the server's largest counter there are N calls
    that all return. *)
Lemma store_all_succeeds datas w :
  Forall (fun d => exists a v, storable isprintable d a v) datas ->
  (Z.of_nat (length datas) <= LLONG_MAX)%Z ->
  exists keys w',
    (self <- Cache__init__ ;; store_all isprintable self datas) w = (Ok keys, w').
Proof.
  intros Hd Hn.
  destruct (store_all_run datas Hd (snd (Cache__init__ w)) [] [])
    as (keys & w1 & _ & _ & Hr & _).
  { unfold booked. simpl. rewrite !lookup_empty. now repeat split. }
  { simpl length. lia. }
  exists keys, w1.
  now rewrite (bind_eq_Ok _ _ w live (snd (Cache__init__ w)) eq_refl).
Qed.

Lemma stores_of_bytes_succeed bs w :
  (Z.of_nat (length bs) <= LLONG_MAX)%Z ->
  exists keys w',
    (self <- Cache__init__ ;; store_all isprintable self (map VBytes bs)) w
      = (Ok keys, w').
Proof.
  intros Hn. apply store_all_succeeds; [|now rewrite length_map].
  apply Forall_map, Forall_forall. intros b _.
  destruct (bytes_storable isprintable b) as [Ha Hv].
  eexists _, _. split; [exact Ha | exact Hv].
Qed.

(** The scenario of the typed getters: a [str] comes back from
    [get_str] and an [int] from [get_int]. *)
Lemma store_then_typed_get self data key w w1 :
  store isprintable self data w = (Ok (VStr key), w1) ->
  match data with
  | VStr s => fst (Cache_get_str self key w1) = Ok (VStr s)
  | VInt z => fst (Cache_get_int self key w1) = Ok (VInt z)
  | _ => True
  end.
Proof.
  intros H. apply store_Ok in H
    as (Hl & a & v & li & c & lo & _ & Ev & _ & _ & _ & Hk & Hdb & _).
  injection Hk as ->.
  assert (db w1 !! next_key w = Some (RString v)) as Hv.
  { destruct (next_key_fresh w) as (_ & _ & F).
    rewrite Hdb, lookup_insert_ne by done. apply lookup_insert_eq. }
  destruct data as [|s|b|z|r]; try done; unfold Cache_get_str, Cache_get_int;
    rewrite (Cache_get_present self _ _ w1 (next_key w) v Hl
               (encode_next_uuid w) Hv).
  - unfold lambda_decode, decode_utf8, bind. simpl in Ev.
    destruct (utf8_encode s) as [b|] eqn:E; [|done]. injection Ev as ->.
    now rewrite (utf8_decode_encode _ _ E).
  - rewrite encode_int in Ev. injection Ev as <-.
    unfold lambda_int, int_bytes, bind. now rewrite int_of_bytes_decimal.
Qed.

End Scenario.

(** Three calls, then [replay]: the text the program prints. *)
Example replay_three_stores :
  map ascii_bytes
    (stdout (snd (store_and_replay ascii_printable
                    [VStr (u "a"); VStr (u "b"); VStr (u "c")] example_world)))
  = [ "Cache.store was called 3 times:";
      "Cache.store(*('a',)) -> b'00000000-0000-4000-8000-000000000000'";
      "Cache.store(*('b',)) -> b'00000000-0123-4567-890a-bcdef1234567'";
      "Cache.store(*('c',)) -> b'00000000-0246-4acf-9215-79bde2468ace'" ].
Proof. vm_compute. reflexivity. Qed.

(** A call that raises after its input was recorded leaves the input
    history longer than the output history; [replay] then pairs what
    is there and drops the input that is left over. *)
Example replay_after_failed_store :
  let run :=
    (self <- Cache__init__ ;;
     (fun w => (Ok tt, snd (store ascii_printable self VNone w))) ;;
     store ascii_printable self (VStr (u "a")) ;;
     replay (BoundMethod (Instance self) (Cache_store ascii_printable)))
    example_world in
  fst (store ascii_printable live VNone example_world) = Raise DataError /\
  history (db (snd run)) IN_KEY = Some ["(None,)"; "('a',)"] /\
  history (db (snd run)) OUT_KEY = Some ["00000000-0123-4567-890a-bcdef1234567"] /\
  map ascii_bytes (stdout (snd run))
  = [ "Cache.store was called 2 times:";
      "Cache.store(*(None,)) -> b'00000000-0123-4567-890a-bcdef1234567'" ].
Proof. vm_compute. repeat split. Qed.

(* ===================================================================== *)
(** ** Further properties of the module *)
(* ===================================================================== *)

(* ===================================================================== *)
(** ** Further facts about the client *)
(* ===================================================================== *)

(** Every command leaves the keys other than its own as they were, and
    none touches the random source. *)
Lemma rpush_frame h name val w k :
  Encoder_encode (VStr name) <> Ok k ->
  db (snd (rpush h name val w)) !! k = db w !! k.
Proof.
  intros Hk. destruct h; [|done]. unfold rpush, on_client, bind, lift.
  destruct (Encoder_encode (VStr name)) as [k0|]; [|done].
  destruct (Encoder_encode val) as [v|]; [|done]. simpl.
  assert (k0 <> k) by congruence.
  destruct (db w !! k0) as [[|]|]; simpl; try done;
    now rewrite lookup_insert_ne.
Qed.

Lemma incr_frame h name w k :
  Encoder_encode (VStr name) <> Ok k ->
  db (snd (incr h name w)) !! k = db w !! k.
Proof.
  intros Hk. destruct h; [|done]. unfold incr, on_client, bind, lift.
  destruct (Encoder_encode (VStr name)) as [k0|]; [|done]. simpl.
  assert (k0 <> k) by congruence.
  destruct (db w !! k0) as [[b|]|]; simpl; try done.
  - destruct (string2ll b) as [z|]; [|done].
    destruct (z =? LLONG_MAX)%Z; [done|]. simpl. now rewrite lookup_insert_ne.
  - now rewrite lookup_insert_ne.
Qed.

Lemma set_frame h name val w k :
  Encoder_encode (VStr name) <> Ok k ->
  db (snd (set h name val w)) !! k = db w !! k.
Proof.
  intros Hk. destruct h; [|done]. unfold set, on_client, bind, lift.
  destruct (Encoder_encode (VStr name)) as [k0|]; [|done].
  destruct (Encoder_encode val) as [v|]; [|done]. simpl.
  assert (k0 <> k) by congruence. now rewrite lookup_insert_ne.
Qed.

Lemma rpush_random h name val w :
  urandom (snd (rpush h name val w)) = urandom w /\
  drawn (snd (rpush h name val w)) = drawn w.
Proof.
  destruct h; [|done]. unfold rpush, on_client, bind, lift.
  destruct (Encoder_encode (VStr name)) as [k0|]; [|done].
  destruct (Encoder_encode val) as [v|]; [|done]. simpl.
  now destruct (db w !! k0) as [[|]|].
Qed.

Lemma incr_random h name w :
  urandom (snd (incr h name w)) = urandom w /\
  drawn (snd (incr h name w)) = drawn w.
Proof.
  destruct h; [|done]. unfold incr, on_client, bind, lift.
  destruct (Encoder_encode (VStr name)) as [k0|]; [|done]. simpl.
  destruct (db w !! k0) as [[b|]|]; simpl; try done.
  destruct (string2ll b) as [z|]; [|done]. now destruct (z =? LLONG_MAX)%Z.
Qed.

(** Closes [Encoder_encode (VStr name) <> Ok k] for a literal [name]. *)
Ltac other_key :=
  let E := fresh "E" in
  intros E; vm_compute in E; injection E as E; subst; contradiction.

Section StoreFrame.

Variable isprintable : N -> bool.

(** X14.  Whatever its outcome, a call of [store] leaves every key other
    than the three bookkeeping keys and the fresh key as it was: a value
    stored earlier under another key is never disturbed. *)
Theorem store_frame self data w k :
  k <> COUNT_KEY -> k <> IN_KEY -> k <> OUT_KEY -> k <> next_key w ->
  db (snd (store isprintable self data w)) !! k = db w !! k.
Proof.
  intros F1 F2 F3 F4. destruct self as [[|]]; [|done].
  unfold store, Cache_store, call_history, count_calls, wraps.
  cbn [__call__ __qualname__ _redis isinstance_Redis Cache_store_body store_data].
  set (m1 := rpush RedisClient (u "Cache.store" ++ u ":inputs")
               (VStr (str_tuple isprintable [data]))).
  pose proof (rpush_frame RedisClient (u "Cache.store" ++ u ":inputs")
                (VStr (str_tuple isprintable [data])) w k) as H1.
  pose proof (rpush_random RedisClient (u "Cache.store" ++ u ":inputs")
                (VStr (str_tuple isprintable [data])) w) as [U1 D1].
  fold m1 in H1, U1, D1.
  unfold bind at 1. unfold bind at 1.
  destruct (m1 w) as [[n1|e1] w1]; cbn [fst snd] in *;
    [|apply H1; other_key].
  unfold ret at 1. unfold bind at 1. unfold bind at 1. unfold bind at 1.
  pose proof (incr_frame RedisClient (u "Cache.store") w1 k) as H2.
  pose proof (incr_random RedisClient (u "Cache.store") w1) as [U2 D2].
  destruct (incr RedisClient (u "Cache.store") w1) as [[n2|e2] w2];
    cbn [fst snd] in *.
  2:{ rewrite H2, H1; [done | other_key | other_key]. }
  unfold ret at 1. unfold bind at 1. unfold ret at 1. unfold bind at 1.
  unfold uuid4 at 1. unfold bind at 1.
  set (w3 := World (db w2) (log w2) (urandom w2) (S (drawn w2)) (stdout w2)).
  assert (str_of_uuid (uuid4_int (urandom w2 (drawn w2))) = next_uuid w) as ->.
  { unfold next_uuid. now rewrite U2, D2, U1, D1. }
  pose proof (set_frame RedisClient (next_uuid w) data w3 k) as H3.
  change (db w3) with (db w2) in H3.
  destruct (set RedisClient (next_uuid w) data w3) as [[n3|e3] w4];
    cbn [fst snd] in *.
  2:{ rewrite H3, H2, H1; [done | other_key | other_key |].
      rewrite encode_next_uuid. congruence. }
  unfold ret at 1. unfold bind at 1. unfold bind at 1.
  pose proof (rpush_frame RedisClient (u "Cache.store" ++ u ":outputs")
                (VStr (next_uuid w)) w4 k) as H4.
  destruct (rpush RedisClient (u "Cache.store" ++ u ":outputs")
              (VStr (next_uuid w)) w4) as [[n4|e4] w5];
    unfold bind, ret; cbn [fst snd] in *;
    (rewrite H4, H3, H2, H1; [done | other_key | other_key | | other_key];
     rewrite encode_next_uuid; congruence).
Qed.

End StoreFrame.

Lemma rpush_refused name val w k e :
  Encoder_encode (VStr name) = Ok k -> Encoder_encode val = Raise e ->
  rpush RedisClient name val w = (Raise e, w).
Proof.
  intros Ek Ev. unfold rpush, on_client, bind, lift. now rewrite Ek, Ev.
Qed.

Lemma set_refused name val w k e :
  Encoder_encode (VStr name) = Ok k -> Encoder_encode val = Raise e ->
  set RedisClient name val w = (Raise e, w).
Proof.
  intros Ek Ev. unfold set, on_client, bind, lift. now rewrite Ek, Ev.
Qed.

Lemma incr_overflow name w k n :
  Encoder_encode (VStr name) = Ok k ->
  db w !! k = tally n -> Z.of_nat n = LLONG_MAX ->
  incr RedisClient name w = (Raise OVERFLOW, sent (INCRBY k 1) w).
Proof.
  intros Ek Hn Hmax. unfold incr, on_client, bind, lift. rewrite Ek.
  cbn [db sent]. rewrite Hn. destruct n as [|n]; [done|]. cbn [tally].
  rewrite string2ll_decimal by (unfold LLONG_MIN, LLONG_MAX in *; lia).
  now destruct (Z.eqb_spec (Z.of_nat (S n)) LLONG_MAX).
Qed.

Section StoreCalls.

Variable isprintable : N -> bool.

(** The two steps every call of the decorated [store] starts with when
    the counter key and the inputs key are well kept: the input is
    recorded, then the call is counted. *)
Lemma call_store_prologue args kw w c inputs a :
  db w !! COUNT_KEY = tally c ->
  db w !! IN_KEY = shelf inputs ->
  (Z.of_nat c < LLONG_MAX)%Z ->
  Encoder_encode (VStr (str_tuple isprintable args)) = Ok a ->
  __call__ (Cache_store isprintable) live args kw w =
    (output <- __call__ Cache_store_body live args kw ;;
     (_ <- rpush RedisClient (u "Cache.store:outputs") output ;; ret tt) ;;
     ret output)
    (with_db (insert COUNT_KEY (RString (decimal (Z.of_nat (S c)))))
       (sent (INCRBY COUNT_KEY 1)
          (with_db (insert IN_KEY (RList (inputs ++ [a])))
             (sent (RPUSH IN_KEY a) w)))).
Proof.
  intros Hc Hi Hlt Ea.
  unfold Cache_store, call_history, count_calls, wraps.
  cbn [__call__ __qualname__ _redis isinstance_Redis live].
  change (__qualname__ Cache_store_body) with (u "Cache.store").
  unfold bind at 1. unfold bind at 1.
  rewrite (rpush_run (u "Cache.store" ++ u ":inputs") _ w IN_KEY a inputs
             eq_refl Ea Hi).
  unfold ret at 1. unfold bind at 1. unfold bind at 1. unfold bind at 1.
  erewrite (incr_run (u "Cache.store") _ COUNT_KEY c eq_refl); [|
    cbn [db with_db sent]; now rewrite lookup_insert_ne | done].
  unfold ret at 1. reflexivity.
Qed.

(** A call whose body raises without writing is still counted, and its
    input stays recorded with no output beside it. *)
Lemma call_store_body_raises args kw w c inputs a e :
  db w !! COUNT_KEY = tally c ->
  db w !! IN_KEY = shelf inputs ->
  (Z.of_nat c < LLONG_MAX)%Z ->
  Encoder_encode (VStr (str_tuple isprintable args)) = Ok a ->
  (forall w0, fst (__call__ Cache_store_body live args kw w0) = Raise e /\
              db (snd (__call__ Cache_store_body live args kw w0)) = db w0 /\
              log (snd (__call__ Cache_store_body live args kw w0)) = log w0) ->
  fst (__call__ (Cache_store isprintable) live args kw w) = Raise e /\
  db (snd (__call__ (Cache_store isprintable) live args kw w)) =
    <[COUNT_KEY := RString (decimal (Z.of_nat (S c)))]>
      (<[IN_KEY := RList (inputs ++ [a])]> (db w)) /\
  log (snd (__call__ (Cache_store isprintable) live args kw w)) =
    log w ++ [RPUSH IN_KEY a; INCRBY COUNT_KEY 1].
Proof.
  intros Hc Hi Hlt Ea Hbody.
  rewrite (call_store_prologue args kw w c inputs a Hc Hi Hlt Ea).
  match goal with |- context [bind _ _ ?w1] => set (w0 := w1) end.
  destruct (Hbody w0) as (Hr & Hd & Hl).
  match goal with |- context [bind ?m ?k w0] =>
    assert (bind m k w0 = (Raise e, snd (m w0))) as ->
  end.
  { unfold bind at 1.
    destruct (__call__ Cache_store_body live args kw w0) as [[v|e'] w1];
      cbn [fst snd] in *; congruence. }
  cbn [fst snd]. rewrite Hd, Hl. subst w0. cbn [db log sent with_db].
  split; [reflexivity|]. split; [reflexivity|].
  rewrite <- app_assoc. reflexivity.
Qed.

Lemma body_refuses_value data e w0 :
  Encoder_encode data = Raise e ->
  fst (__call__ Cache_store_body live [data] [] w0) = Raise e /\
  db (snd (__call__ Cache_store_body live [data] [] w0)) = db w0 /\
  log (snd (__call__ Cache_store_body live [data] [] w0)) = log w0.
Proof.
  intros Ev.
  assert (__call__ Cache_store_body live [data] [] w0 =
          (Raise e, World (db w0) (log w0) (urandom w0) (S (drawn w0)) (stdout w0)))
    as ->; [|split; [|split]; reflexivity].
  cbn [__call__ Cache_store_body store_data _redis live].
  unfold bind at 1. unfold ret at 1. unfold bind at 1. unfold uuid4 at 1.
  unfold bind at 1.
  erewrite set_refused; [reflexivity | | exact Ev].
  apply (encode_next_uuid w0).
Qed.


(** A call whose argument binds to [data] and can go on the wire
    returns the fresh key, with all four changes made. *)
Lemma call_store_returns args kw data w c inputs outputs a v :
  db w !! COUNT_KEY = tally c ->
  db w !! IN_KEY = shelf inputs ->
  db w !! OUT_KEY = shelf outputs ->
  (Z.of_nat c < LLONG_MAX)%Z ->
  Encoder_encode (VStr (str_tuple isprintable args)) = Ok a ->
  store_data args kw = ret data ->
  Encoder_encode data = Ok v ->
  fst (__call__ (Cache_store isprintable) live args kw w)
    = Ok (VStr (next_uuid w)) /\
  db (snd (__call__ (Cache_store isprintable) live args kw w)) =
    <[OUT_KEY := RList (outputs ++ [next_key w])]>
      (<[next_key w := RString v]>
         (<[COUNT_KEY := RString (decimal (Z.of_nat (S c)))]>
            (<[IN_KEY := RList (inputs ++ [a])]> (db w)))).
Proof.
  intros Hc Hi Ho Hlt Ea Hd Ev.
  destruct (next_key_fresh w) as (F1 & F2 & F3).
  rewrite (call_store_prologue args kw w c inputs a Hc Hi Hlt Ea).
  cbn [__call__ Cache_store_body _redis live]. rewrite Hd.
  match goal with |- context [bind _ _ ?w1] => set (w0 := w1) end.
  match goal with |- context [bind ?m ?k w0] =>
    assert (bind m k w0 =
            (Ok (VStr (next_uuid w)),
             with_db (insert OUT_KEY (RList (outputs ++ [next_key w])))
               (sent (RPUSH OUT_KEY (next_key w))
                  (with_db (insert (next_key w) (RString v))
                     (sent (SET (next_key w) v)
                        (World (db w0) (log w0) (urandom w0) (S (drawn w0))
                           (stdout w0))))))) as ->
  end.
  { unfold bind at 1. unfold bind at 1. unfold ret at 1.
    unfold bind at 1. unfold uuid4 at 1. unfold bind at 1.
    change (str_of_uuid (uuid4_int (urandom w0 (drawn w0)))) with (next_uuid w).
    rewrite (set_run _ _ _ (next_key w) v (encode_next_uuid w) Ev).
    unfold ret at 1. unfold bind at 1. unfold bind at 1.
    erewrite (rpush_run (u "Cache.store:outputs") _ _ OUT_KEY
                (next_key w) outputs eq_refl (encode_next_uuid w)); [reflexivity|].
    subst w0. cbn [db with_db sent]. now rewrite !lookup_insert_ne by done. }
  split; reflexivity.
Qed.

End StoreCalls.

Section StoreEdges.

Variable isprintable : N -> bool.

(** What a counted call that raised in its body leaves in the books. *)
Lemma counted_not_answered (m : gmap string entry) c inputs outputs a k :
  m !! OUT_KEY = shelf outputs -> k <> COUNT_KEY -> k <> IN_KEY ->
  let m' := <[COUNT_KEY := RString (decimal (Z.of_nat (S c)))]>
              (<[IN_KEY := RList (inputs ++ [a])]> m) in
  counter m' COUNT_KEY = Some (Z.of_nat c + 1)%Z /\
  history m' IN_KEY = Some (inputs ++ [a]) /\
  history m' OUT_KEY = Some outputs /\
  m' !! k = m !! k.
Proof.
  intros Ho K1 K2 m'. subst m'. repeat split.
  - rewrite (counter_decimal _ _ (Z.of_nat (S c))); [f_equal; lia|].
    apply lookup_insert_eq.
  - unfold history. rewrite lookup_insert_ne by done.
    now rewrite lookup_insert_eq.
  - apply history_shelf. now rewrite !lookup_insert_ne by done.
  - now rewrite !lookup_insert_ne by done.
Qed.

(** X5.  A call of [store] whose value the client refuses to send (such
    as [None]) raises the client's error after the call was counted and
    its input recorded: the counter and the input history grow by one,
    the output history does not, and no value is written. *)
Theorem store_refused_value data w c inputs outputs a e :
  db w !! COUNT_KEY = tally c ->
  db w !! IN_KEY = shelf inputs ->
  db w !! OUT_KEY = shelf outputs ->
  (Z.of_nat c < LLONG_MAX)%Z ->
  Encoder_encode (VStr (str_tuple isprintable [data])) = Ok a ->
  Encoder_encode data = Raise e ->
  fst (store isprintable live data w) = Raise e /\
  counter (db (snd (store isprintable live data w))) COUNT_KEY
    = Some (Z.of_nat c + 1)%Z /\
  history (db (snd (store isprintable live data w))) IN_KEY
    = Some (inputs ++ [a]) /\
  history (db (snd (store isprintable live data w))) OUT_KEY = Some outputs /\
  db (snd (store isprintable live data w)) !! next_key w = db w !! next_key w.
Proof.
  intros Hc Hi Ho Hlt Ea Ev. unfold store.
  destruct (call_store_body_raises isprintable [data] [] w c inputs a e
              Hc Hi Hlt Ea) as (Hr & Hd & _).
  { intros w0. now apply body_refuses_value. }
  destruct (next_key_fresh w) as (F1 & F2 & _).
  split; [exact Hr|]. rewrite Hd.
  now apply counted_not_answered.
Qed.


(** X12.  The history keeps positional arguments only: a call
    [store(data=v)] stores [v] under the fresh key and returns the key,
    but the input it records is the text of the empty tuple, whatever
    [v] is. *)
Theorem store_by_keyword_records_nothing data w c inputs outputs v :
  db w !! COUNT_KEY = tally c ->
  db w !! IN_KEY = shelf inputs ->
  db w !! OUT_KEY = shelf outputs ->
  (Z.of_nat c < LLONG_MAX)%Z ->
  Encoder_encode data = Ok v ->
  let run := __call__ (Cache_store isprintable) live [] [(u "data", data)] w in
  fst run = Ok (VStr (next_uuid w)) /\
  history (db (snd run)) IN_KEY = Some (inputs ++ ["()"]) /\
  db (snd run) !! next_key w = Some (RString v).
Proof.
  intros Hc Hi Ho Hlt Ev run. subst run.
  destruct (call_store_returns isprintable [] [(u "data", data)] data w c
              inputs outputs "()" v Hc Hi Ho Hlt eq_refl eq_refl Ev) as (Hr & Hd).
  destruct (next_key_fresh w) as (F1 & F2 & F3).
  split; [exact Hr|]. rewrite Hd. split.
  - unfold history. rewrite !lookup_insert_ne by done.
    now rewrite lookup_insert_eq.
  - rewrite lookup_insert_ne by done. apply lookup_insert_eq.
Qed.

(** One call of [store], whatever its outcome, keeps the books in
    order. *)
Lemma store_ledger data w ni c no :
  ledger (db w) ni c no -> no <= c <= ni ->
  exists ni' c' no',
    ledger (db (snd (store isprintable live data w))) ni' c' no' /\
    no' <= c' <= ni' /\ ni' <= S ni.
Proof.
  intros (ins & outs & Hc & Hi & Ho & Li & Lo & Hmax) Hord.
  destruct (next_key_fresh w) as (F1 & F2 & F3).
  destruct (Encoder_encode (VStr (str_tuple isprintable [data]))) as [a|e1] eqn:Ea.
  2:{ (* the input cannot be recorded: nothing happens *)
      exists ni, c, no. split; [|lia].
      assert (store isprintable live data w = (Raise e1, w)) as ->.
      { unfold store, Cache_store, call_history, count_calls, wraps.
        cbn [__call__ __qualname__ _redis isinstance_Redis live].
        change (__qualname__ Cache_store_body) with (u "Cache.store").
        unfold bind at 1. unfold bind at 1.
        now rewrite (rpush_refused (u "Cache.store" ++ u ":inputs") _ w IN_KEY e1
                       eq_refl Ea). }
      now exists ins, outs. }
  destruct (Z_lt_ge_dec (Z.of_nat c) LLONG_MAX) as [Hlt|Hge].
  2:{ (* the counter is at its limit: INCR raises *)
      exists (S ni), c, no. split; [|lia].
      assert (store isprintable live data w =
              (Raise OVERFLOW,
               sent (INCRBY COUNT_KEY 1)
                 (with_db (insert IN_KEY (RList (ins ++ [a])))
                    (sent (RPUSH IN_KEY a) w)))) as ->.
      { unfold store, Cache_store, call_history, count_calls, wraps.
        cbn [__call__ __qualname__ _redis isinstance_Redis live].
        change (__qualname__ Cache_store_body) with (u "Cache.store").
        unfold bind at 1. unfold bind at 1.
        rewrite (rpush_run (u "Cache.store" ++ u ":inputs") _ w IN_KEY a ins
                   eq_refl Ea Hi).
        unfold ret at 1. unfold bind at 1. unfold bind at 1. unfold bind at 1.
        erewrite (incr_overflow (u "Cache.store") _ COUNT_KEY c eq_refl);
          [reflexivity | | lia].
        cbn [db with_db sent]. now rewrite lookup_insert_ne. }
      exists (ins ++ [a]), outs. cbn [snd db with_db sent].
      rewrite length_app. simpl length.
      split; [now rewrite lookup_insert_ne|].
      split; [rewrite lookup_insert_eq; apply shelf_snoc|].
      split; [now rewrite lookup_insert_ne|]. lia. }
  destruct (Encoder_encode data) as [v|e] eqn:Ev.
  - (* the call returns *)
    exists (S ni), (S c), (S no). split; [|lia].
    destruct (call_store_returns isprintable [data] [] data w c ins outs a v
                Hc Hi Ho Hlt Ea eq_refl Ev) as (_ & Hd).
    exists (ins ++ [a]), (outs ++ [next_key w]). unfold store. rewrite Hd.
    rewrite !length_app. simpl length. repeat split; try lia.
    + rewrite !lookup_insert_ne by done. apply lookup_insert_eq.
    + rewrite !lookup_insert_ne by done. rewrite lookup_insert_eq.
      apply shelf_snoc.
    + rewrite lookup_insert_eq. apply shelf_snoc.
  - (* the value is refused *)
    exists (S ni), (S c), no. split; [|lia].
    destruct (call_store_body_raises isprintable [data] [] w c ins a e
                Hc Hi Hlt Ea) as (_ & Hd & _).
    { intros w0. now apply body_refuses_value. }
    exists (ins ++ [a]), outs. unfold store. rewrite Hd.
    rewrite !length_app. simpl length. repeat split; try lia.
    + apply lookup_insert_eq.
    + rewrite lookup_insert_ne by done. rewrite lookup_insert_eq.
      apply shelf_snoc.
    + now rewrite !lookup_insert_ne by done.
Qed.

Lemma attempt_all_ledger datas : forall w ni c no,
  ledger (db w) ni c no -> no <= c <= ni ->
  exists ni' c' no',
    ledger (db (attempt_all isprintable live datas w)) ni' c' no' /\
    no' <= c' <= ni' /\ ni' <= ni + length datas.
Proof.
  induction datas as [|data rest IH]; intros w ni c no Hl Hord; simpl.
  - exists ni, c, no. repeat split; (done || lia).
  - destruct (store_ledger data w ni c no Hl Hord) as (n1 & c1 & o1 & Hl1 & Ho1 & Hn1).
    destruct (IH _ _ _ _ Hl1 Ho1) as (n2 & c2 & o2 & Hl2 & Ho2 & Hn2).
    exists n2, c2, o2. repeat split; (done || lia).
Qed.

(** X6.  From [Cache()] on, after any calls of [store], returned or
    raised, the books stay in order: there are never more outputs than
    counted calls, never more counted calls than inputs, never more
    inputs than calls. *)
Theorem books_stay_ordered datas w :
  let w' := attempt_all isprintable live datas (snd (Cache__init__ w)) in
  exists inputs outputs c,
    history (db w') IN_KEY = Some inputs /\
    history (db w') OUT_KEY = Some outputs /\
    counter (db w') COUNT_KEY = Some (Z.of_nat c) /\
    length outputs <= c <= length inputs /\
    length inputs <= length datas.
Proof.
  intros w'.
  destruct (attempt_all_ledger datas (snd (Cache__init__ w)) 0 0 0)
    as (ni & c & no & (ins & outs & Hc & Hi & Ho & Li & Lo & _) & Hord & Hn).
  { exists [], []. simpl. rewrite !lookup_empty. now repeat split. }
  { lia. }
  exists ins, outs, c. subst w'.
  split; [now apply history_shelf|]. split; [now apply history_shelf|].
  split; [now apply counter_tally|]. lia.
Qed.

End StoreEdges.

(* ===================================================================== *)
(** ** Further facts about [replay] and the getters *)
(* ===================================================================== *)

Lemma reader_ret {A} (a : A) : reader (ret a).
Proof. intros w. apply reads_only_refl. Qed.

Lemma reader_raise {A} e : reader (@raise A e).
Proof. intros w. apply reads_only_refl. Qed.

Lemma reader_bind {A B} (m : M A) (k : A -> M B) :
  reader m -> (forall a, reader (k a)) -> reader (bind m k).
Proof.
  intros Hm Hk w. unfold bind. specialize (Hm w).
  destruct (m w) as [[a|e] w1]; cbn [snd] in *; [|done].
  eapply reads_only_trans; [exact Hm | apply Hk].
Qed.

Lemma reader_print line : reader (print line).
Proof. intros w. split; [done|]. exists []. now rewrite app_nil_r. Qed.

Lemma reader_get h name : reader (get h name).
Proof. intros w. apply get_reads_only. Qed.

Lemma reader_lrange h name start stop : reader (lrange h name start stop).
Proof.
  intros w. destruct h; [|apply reads_only_refl].
  unfold lrange, on_client, bind, lift.
  destruct (Encoder_encode (VStr name)) as [k|]; [|apply reads_only_refl].
  assert (reads_only w (sent (LRANGE k start stop) w)) as Hr.
  { split; [done|]. exists [LRANGE k start stop]. split; [done|].
    now repeat constructor. }
  simpl. now destruct (db w !! k) as [[|]|].
Qed.

Lemma reader_for_each {A} (l : list A) (body : A -> M unit) :
  (forall x, reader (body x)) -> reader (for_each l body).
Proof.
  intros Hb. induction l as [|x l IH]; simpl.
  - apply reader_ret.
  - apply reader_bind; [apply Hb | intros _; apply IH].
Qed.

Lemma reader_decode_utf8 b : reader (decode_utf8 b).
Proof.
  unfold decode_utf8. destruct (utf8_decode b); [apply reader_ret | apply reader_raise].
Qed.

Lemma reader_int_or_0 reply : reader (int_or_0 reply).
Proof.
  destruct reply as [[|a b]|]; simpl; try apply reader_ret.
  unfold int_bytes. destruct (int_of_bytes _); [apply reader_ret | apply reader_raise].
Qed.

(** X7.  [replay] never writes: for every argument and every state it
    leaves the database as it was and sends reading commands only,
    whether it returns or raises. *)
Theorem replay_reads_only fn w : reads_only w (snd (replay fn w)).
Proof.
  destruct fn as [|m|self m]; simpl; try apply reads_only_refl.
  destruct (isinstance_Redis (getattr_redis self)); simpl;
    [|apply reads_only_refl].
  revert w. change (reader
    (reply <- get (getattr_redis self) (__qualname__ m) ;;
     fxn_call_count <- int_or_0 reply ;;
     print (__qualname__ m ++ u " was called " ++ u (decimal fxn_call_count)
              ++ u " times:") ;;
     fxn_inputs <- lrange (getattr_redis self) (__qualname__ m ++ u ":inputs") 0 (-1) ;;
     fxn_outputs <- lrange (getattr_redis self) (__qualname__ m ++ u ":outputs") 0 (-1) ;;
     for_each (combine fxn_inputs fxn_outputs) (fun '(fxn_input, fxn_output) =>
       input_text <- decode_utf8 fxn_input ;;
       print (__qualname__ m ++ u "(*" ++ input_text ++ u ") -> "
                ++ repr_bytes fxn_output)))).
  apply reader_bind; [apply reader_get | intros reply].
  apply reader_bind; [apply reader_int_or_0 | intros n].
  apply reader_bind; [apply reader_print | intros _].
  apply reader_bind; [apply reader_lrange | intros ins].
  apply reader_bind; [apply reader_lrange | intros outs].
  apply reader_for_each. intros [i o].
  apply reader_bind; [apply reader_decode_utf8 | intros t; apply reader_print].
Qed.

(** X8.  When the counter key holds something [replay] cannot read as a
    number (text that is not a number, or a list), [replay] raises
    before it prints anything. *)
Theorem replay_unreadable_counter self m k w :
  getattr_redis self = RedisClient ->
  Encoder_encode (VStr (__qualname__ m)) = Ok k ->
  counter (db w) k = None ->
  (fst (replay (BoundMethod self m) w) = Raise ValueError \/
   fst (replay (BoundMethod self m) w) = Raise WRONGTYPE) /\
  stdout (snd (replay (BoundMethod self m) w)) = stdout w.
Proof.
  intros Hl Ek Hn.
  assert (replay (BoundMethod self m) w = (Raise ValueError, sent (GET k) w) \/
          replay (BoundMethod self m) w = (Raise WRONGTYPE, sent (GET k) w)) as H.
  { unfold replay. rewrite Hl. cbn [isinstance_Redis negb].
    unfold counter in Hn. destruct (db w !! k) as [[b|l]|] eqn:Hk; [ | right | done].
    - destruct b as [|a b]; [done|]. left.
      unfold bind at 1. rewrite (get_run _ _ _ Ek), Hk.
      unfold bind at 1, int_or_0, int_bytes. now rewrite Hn.
    - unfold bind at 1. now rewrite (get_run _ _ _ Ek), Hk. }
  destruct H as [-> | ->]; (split; [auto | reflexivity]).
Qed.

(** The loop of [replay] stops at the first input that is not UTF-8,
    after the lines of the pairs before it. *)
Lemma replay_loop_stops name good texts :
  decoded good texts ->
  forall bad rest outs_pre o outs_post w,
    utf8_decode bad = None ->
    length outs_pre = length good ->
    for_each (combine (good ++ bad :: rest) (outs_pre ++ o :: outs_post))
      (fun '(fxn_input, fxn_output) =>
        input_text <- decode_utf8 fxn_input ;;
        print (name ++ u "(*" ++ input_text ++ u ") -> " ++ repr_bytes fxn_output)) w
    = (Raise UnicodeDecodeError,
       printed (zip_with (entry_line name) texts outs_pre) w).
Proof.
  induction 1 as [|b t good texts Hb _ IH];
    intros bad rest outs_pre o outs_post w Hbad Hlen.
  - destruct outs_pre; [|done]. simpl.
    unfold bind at 1. unfold bind at 1. unfold decode_utf8. rewrite Hbad.
    unfold raise. now rewrite printed_nil.
  - destruct outs_pre as [|o1 outs_pre]; [done|]. simpl.
    unfold bind at 1. unfold bind at 1. unfold decode_utf8. rewrite Hb.
    unfold ret at 1. unfold print at 1.
    rewrite IH by (simpl in Hlen; auto || lia).
    now rewrite <- printed_cons.
Qed.

(** X9.  When an entry of the input history is not UTF-8 text and has
    an output beside it, [replay] prints the summary line and the lines
    of the pairs before that entry, then raises [UnicodeDecodeError]. *)
Theorem replay_stops_at_bad_input
    self m k n good texts bad rest outs_pre o outs_post w :
  getattr_redis self = RedisClient ->
  Encoder_encode (VStr (__qualname__ m)) = Ok k ->
  counter (db w) k = Some n ->
  history (db w) (k +:+ ":inputs") = Some (good ++ bad :: rest) ->
  history (db w) (k +:+ ":outputs") = Some (outs_pre ++ o :: outs_post) ->
  decoded good texts ->
  utf8_decode bad = None ->
  length outs_pre = length good ->
  fst (replay (BoundMethod self m) w) = Raise UnicodeDecodeError /\
  stdout (snd (replay (BoundMethod self m) w))
    = stdout w ++ summary_line (__qualname__ m) n
        :: zip_with (entry_line (__qualname__ m)) texts outs_pre.
Proof.
  intros Hl Ek Hn Hin Hout Hd Hbad Hlen.
  pose proof (encode_suffix _ _ ":inputs" Ek) as Eki.
  pose proof (encode_suffix _ _ ":outputs" Ek) as Eko.
  change (utf8_encode (u ":inputs")) with (Some ":inputs") in Eki.
  change (utf8_encode (u ":outputs")) with (Some ":outputs") in Eko.
  cbn iota in Eki, Eko.
  assert (replay (BoundMethod self m) w =
          (Raise UnicodeDecodeError,
           printed (zip_with (entry_line (__qualname__ m)) texts outs_pre)
             (sent (LRANGE (k +:+ ":outputs") 0 (-1))
                (sent (LRANGE (k +:+ ":inputs") 0 (-1))
                   (printed [summary_line (__qualname__ m) n]
                      (sent (GET k) w)))))) as ->.
  { unfold replay. rewrite Hl. cbn [isinstance_Redis negb].
    unfold bind at 1. rewrite (get_run _ _ _ Ek).
    assert (exists reply,
      match db w !! k with
      | Some (RString b) => Ok (Some b)
      | Some (RList _) => Raise WRONGTYPE
      | None => Ok None
      end = Ok reply /\ forall w0, int_or_0 reply w0 = (Ok n, w0))
      as (reply & -> & Hr).
    { unfold counter in Hn. destruct (db w !! k) as [[b|l]|]; [ | done | ].
      - exists (Some b). split; [done|]. intros w0.
        destruct b as [|a b]; [now injection Hn as <-|].
        unfold int_or_0, int_bytes. now rewrite Hn.
      - exists None. split; [done|]. intros w0. now injection Hn as <-. }
    unfold bind at 1. rewrite Hr.
    unfold bind at 1. unfold print at 1.
    unfold bind at 1. rewrite (lrange_run _ _ _ Eki).
    cbn [db log urandom drawn stdout with_db sent]. rewrite Hin.
    unfold bind at 1. rewrite (lrange_run _ _ _ Eko).
    cbn [db log urandom drawn stdout with_db sent]. rewrite Hout.
    now rewrite (replay_loop_stops _ _ _ Hd). }
  cbn [fst snd printed stdout db sent]. rewrite <- app_assoc.
  split; reflexivity.
Qed.

(** *** The layout of the keys *)

(** The version digit of [uuid.uuid4()] is 4. *)
Lemma uuid4_version rnd : N.land (N.shiftr (uuid4_int rnd) 76) 15 = 4%N.
Proof.
  apply N.bits_inj. intros i. rewrite N.land_spec, N.shiftr_spec'.
  destruct (N.lt_ge_cases i 4) as [Hi|Hi].
  - unfold uuid4_int. rewrite N.lor_spec, N.ldiff_spec.
    rewrite !N.shiftl_spec_high' by lia.
    replace (i + 76 - 64)%N with (i + 12)%N by lia.
    replace (i + 76 - 76)%N with i by lia.
    assert (i = 0 \/ i = 1 \/ i = 2 \/ i = 3)%N as [-> | [-> | [-> | ->]]] by lia;
      cbn [N.add Pos.add Pos.succ]; change (N.testbit 61440 _) with true;
      rewrite andb_false_r; reflexivity.
  - assert (N.testbit 15 i = false) as ->.
    { apply N.bits_above_log2. change (N.log2 15) with 3%N. lia. }
    rewrite andb_false_r. symmetry.
    apply N.bits_above_log2. change (N.log2 4) with 2%N. lia.
Qed.

Lemma uuid_layout rnd :
  let key := str_of_uuid (uuid4_int rnd) in
  length key = 36 /\
  Forall (fun c => (c < 0x80)%N) key /\
  key !! 8 = Some 45%N /\ key !! 13 = Some 45%N /\
  key !! 18 = Some 45%N /\ key !! 23 = Some 45%N /\
  key !! 14 = Some 52%N.
Proof.
  intros key. split; [reflexivity|]. split; [apply str_of_uuid_ascii|].
  repeat (split; [reflexivity|]).
  subst key. unfold str_of_uuid, hex_fixed.
  change (_ !! 14) with
    (Some (hex_digit (N.land (N.shiftr (uuid4_int rnd) (4 * N.of_nat 19)) 15))).
  change (4 * N.of_nat 19)%N with 76%N. now rewrite uuid4_version.
Qed.

Section FurtherProperties.

Variable isprintable : N -> bool.

(** X15.  The key [store] returns is a version-4 UUID in its usual
    text: 36 ASCII characters, dashes after the 8th, 12th, 16th and 20th
    digit, and 4 as the first digit of the third group. *)
Theorem store_returns_uuid self data key w w1 :
  store isprintable self data w = (Ok key, w1) ->
  exists s,
    key = VStr s /\ length s = 36 /\ Forall (fun c => (c < 0x80)%N) s /\
    s !! 8 = Some 45%N /\ s !! 13 = Some 45%N /\
    s !! 18 = Some 45%N /\ s !! 23 = Some 45%N /\
    s !! 14 = Some 52%N.
Proof.
  intros H. apply store_Ok in H as (_ & a & v & li & c & lo & H).
  destruct H as (_ & _ & _ & _ & _ & -> & _).
  exists (next_uuid w). split; [done|]. apply uuid_layout.
Qed.

(** X1.  A [str] that was stored comes back unchanged from [get_str]
    on the key [store] returned. *)
Theorem get_str_after_store self s key w w1 :
  store isprintable self (VStr s) w = (Ok (VStr key), w1) ->
  fst (Cache_get_str self key w1) = Ok (VStr s).
Proof. intros H. exact (store_then_typed_get isprintable self _ key w w1 H). Qed.

(** X2.  An [int] that was stored comes back unchanged from [get_int]
    on the key [store] returned. *)
Theorem get_int_after_store self z key w w1 :
  store isprintable self (VInt z) w = (Ok (VStr key), w1) ->
  fst (Cache_get_int self key w1) = Ok (VInt z).
Proof. intros H. exact (store_then_typed_get isprintable self _ key w w1 H). Qed.

(** X4.  On an instance whose [_redis] is [None], [store] raises
    [AttributeError]: the decorators skip their bookkeeping, the body
    generates a key and fails on [None.set]; nothing is sent, written
    or printed. *)
Theorem store_without_client self data w :
  _redis self = NoClient ->
  store isprintable self data w =
    (Raise AttributeError,
     World (db w) (log w) (urandom w) (S (drawn w)) (stdout w)).
Proof. destruct self as [h]. simpl. intros ->. reflexivity. Qed.

Lemma counter_nonzero (m : gmap string entry) k z :
  counter m k = Some z -> z <> 0%Z ->
  exists b, m !! k = Some (RString b) /\ int_of_bytes b = Some z.
Proof.
  unfold counter. destruct (m !! k) as [[b|l]|]; [|done|congruence].
  destruct b as [|a b]; [congruence|]. eauto.
Qed.

Lemma history_nonempty (m : gmap string entry) k l :
  history m k = Some l -> l <> [] -> m !! k = Some (RList l).
Proof.
  unfold history. destruct (m !! k) as [[b|l']|]; congruence.
Qed.

Lemma Cache_get_wrongtype key fn w k l :
  Encoder_encode (VStr key) = Ok k ->
  db w !! k = Some (RList l) ->
  Cache_get live key fn w = (Raise WRONGTYPE, sent (GET k) w).
Proof.
  intros Ek Hk. unfold Cache_get. cbn [_redis live]. unfold bind.
  now rewrite (get_run _ _ _ Ek), Hk.
Qed.

(** X10.  The call counter can be read through the facade: after
    [Cache()] and N >= 1 successful calls of [store], [get_int] on the
    qualified name of [store] returns N. *)
Theorem get_int_reads_counter datas w keys w' :
  (self <- Cache__init__ ;; store_all isprintable self datas) w = (Ok keys, w') ->
  datas <> [] ->
  fst (Cache_get_int live (u "Cache.store") w')
    = Ok (VInt (Z.of_nat (length datas))).
Proof.
  intros H Hne. apply bind_Ok in H as (self & w0 & Hi & H).
  injection Hi as <- <-.
  destruct (store_all_counts isprintable _ _ _ _ _ H 0%Z [] [])
    as (Hc & _); try done.
  destruct (counter_nonzero _ _ _ Hc) as (b & Hb & Hz).
  { destruct datas; [done | simpl; lia]. }
  unfold Cache_get_int.
  rewrite (Cache_get_present live (u "Cache.store") _ w' COUNT_KEY b
             eq_refl eq_refl Hb).
  unfold lambda_int, int_bytes, bind. now rewrite Hz.
Qed.

(** X11.  The history lists cannot be read through the facade: after
    [Cache()] and at least one successful call of [store], [get] on the
    inputs key or on the outputs key raises the server's WRONGTYPE
    error, with or without a decode function. *)
Theorem get_on_history_key_raises datas w keys w' fn :
  (self <- Cache__init__ ;; store_all isprintable self datas) w = (Ok keys, w') ->
  datas <> [] ->
  fst (Cache_get live (u "Cache.store:inputs") fn w') = Raise WRONGTYPE /\
  fst (Cache_get live (u "Cache.store:outputs") fn w') = Raise WRONGTYPE.
Proof.
  intros H Hne. apply bind_Ok in H as (self & w0 & Hi & H).
  injection Hi as <- <-.
  destruct (store_all_counts isprintable _ _ _ _ _ H 0%Z [] [])
    as (_ & li & lo & Hli & Hlo & Ll & Lo); try done.
  simpl app in *.
  assert (li <> [] /\ lo <> []) as [Nli Nlo].
  { destruct datas; [done|]. split; intros ->; discriminate. }
  split.
  - now rewrite (Cache_get_wrongtype (u "Cache.store:inputs") fn w' IN_KEY li eq_refl
                   (history_nonempty _ _ _ Hli Nli)).
  - now rewrite (Cache_get_wrongtype (u "Cache.store:outputs") fn w' OUT_KEY lo eq_refl
                   (history_nonempty _ _ _ Hlo Nlo)).
Qed.

Lemma int_storable z :
  exists a v, storable isprintable (VInt z) a v.
Proof.
  exists (ascii_bytes (str_tuple isprintable [VInt z])), (decimal z).
  split; [|apply encode_int].
  unfold Encoder_encode. rewrite utf8_encode_ascii; [done|].
  cbn [str_tuple repr]. apply Forall_app_2; [repeat constructor; done|].
  apply Forall_app_2; [apply decimal_ascii | repeat constructor; done].
Qed.

(** X16.  [store] does not fail on [bytes] values and on [int] values
    of at most 4300 digits (those the runtime prints; a [bool] is not
    among them): after [Cache()], any number of calls on such values
    (up to the server's largest counter) all return, whatever
    [str.isprintable] says. *)
Theorem stores_of_plain_values_return datas w :
  Forall plain datas ->
  (Z.of_nat (length datas) <= LLONG_MAX)%Z ->
  exists keys w',
    (self <- Cache__init__ ;; store_all isprintable self datas) w = (Ok keys, w').
Proof.
  intros Hp Hn. apply store_all_succeeds; [|done].
  apply Forall_forall. intros d Hd.
  rewrite Forall_forall in Hp. specialize (Hp d Hd).
  destruct d as [|s|b|z|r]; try done.
  - destruct (bytes_storable isprintable b) as [Ha Hv]. eexists _, _.
    split; [exact Ha | exact Hv].
  - apply int_storable.
Qed.

End FurtherProperties.

Section Resets.

Variable isprintable : N -> bool.

(** X17.  Constructing a [Cache] wipes the books along with the values:
    right after [Cache()], whatever the store held before, [get] on any
    key returns [None] and [replay] of [store] prints the summary line
    with 0 calls and nothing else. *)
Theorem init_resets_everything w key k :
  Encoder_encode (VStr key) = Ok k ->
  let w0 := snd (Cache__init__ w) in
  fst (Cache_get live key None w0) = Ok VNone /\
  fst (replay (BoundMethod (Instance live) (Cache_store isprintable)) w0) = Ok tt /\
  stdout (snd (replay (BoundMethod (Instance live) (Cache_store isprintable)) w0))
    = stdout w ++ [summary_line (u "Cache.store") 0].
Proof.
  intros Ek w0. split.
  - rewrite (Cache_get_absent live key None w0 k eq_refl Ek); [done|].
    apply lookup_empty.
  - assert (decoded [] []) as Hd by constructor.
    rewrite (replay_run (Instance live) (Cache_store isprintable) COUNT_KEY 0
               [] [] [] w0 eq_refl eq_refl eq_refl eq_refl eq_refl Hd).
    split; [reflexivity|]. cbn [snd printed stdout zip_with].
    now rewrite app_nil_r.
Qed.

(** X18.  [replay] can be repeated: a second [replay] of the same method
    prints the same report again, since the first one changed nothing
    in the store. *)
Theorem replay_twice self m k n inputs outputs texts w :
  getattr_redis self = RedisClient ->
  Encoder_encode (VStr (__qualname__ m)) = Ok k ->
  counter (db w) k = Some n ->
  history (db w) (k +:+ ":inputs") = Some inputs ->
  history (db w) (k +:+ ":outputs") = Some outputs ->
  decoded inputs texts ->
  let report := summary_line (__qualname__ m) n
                  :: zip_with (entry_line (__qualname__ m)) texts outputs in
  let twice := replay (BoundMethod self m) ;; replay (BoundMethod self m) in
  fst (twice w) = Ok tt /\
  stdout (snd (twice w)) = stdout w ++ report ++ report.
Proof.
  intros Hl Ek Hn Hin Hout Hd report twice. subst twice report.
  rewrite (bind_eq_Ok _ _ _ _ _
             (replay_run self m k n inputs outputs texts w Hl Ek Hn Hin Hout Hd)).
  match goal with |- context [replay (BoundMethod self m) ?w1] =>
    rewrite (replay_run self m k n inputs outputs texts w1 Hl Ek Hn Hin Hout Hd)
  end.
  cbn [fst snd printed stdout db sent]. split; [done|].
  rewrite <- !app_assoc. reflexivity.
Qed.

End Resets.

Lemma init_resets_everything_witness :
  let w0 := snd (Cache__init__ three_stores) in
  fst (Cache_get live (u "00000000-0000-4000-8000-000000000000") None w0)
    = Ok VNone /\
  fst (replay (BoundMethod (Instance live) (Cache_store ascii_printable)) w0)
    = Ok tt /\
  stdout (snd (replay (BoundMethod (Instance live) (Cache_store ascii_printable)) w0))
    = stdout three_stores ++ [summary_line (u "Cache.store") 0].
Proof.
  apply (init_resets_everything ascii_printable three_stores
           (u "00000000-0000-4000-8000-000000000000")
           "00000000-0000-4000-8000-000000000000").
  reflexivity.
Defined.

Lemma replay_twice_witness :
  let fn := BoundMethod (Instance live) (Cache_store ascii_printable) in
  let texts := [u "('a',)"; u "('b',)"; u "('c',)"] in
  let outputs := default [] (history (db three_stores) OUT_KEY) in
  let report := summary_line (u "Cache.store") 3
                  :: zip_with (entry_line (u "Cache.store")) texts outputs in
  fst ((replay fn ;; replay fn) three_stores) = Ok tt /\
  stdout (snd ((replay fn ;; replay fn) three_stores))
    = stdout three_stores ++ report ++ report.
Proof.
  intros fn texts outputs report.
  apply (replay_twice (Instance live) (Cache_store ascii_printable)
           "Cache.store" 3 ["('a',)"; "('b',)"; "('c',)"] outputs texts
           three_stores).
  - reflexivity.
  - reflexivity.
  - vm_compute. reflexivity.
  - vm_compute. reflexivity.
  - vm_compute. reflexivity.
  - repeat constructor.
Defined.

(* ===================================================================== *)
(** ** The further properties on examples *)
(* ===================================================================== *)

Lemma get_str_after_store_witness :
  fst (Cache_get_str live (next_uuid example_world)
         (snd (store ascii_printable live (VStr (u "hello")) example_world)))
    = Ok (VStr (u "hello")).
Proof.
  apply (get_str_after_store ascii_printable live (u "hello")
           (next_uuid example_world) example_world).
  vm_compute. reflexivity.
Defined.

Lemma get_int_after_store_witness :
  fst (Cache_get_int live (next_uuid example_world)
         (snd (store ascii_printable live (VInt (-42)) example_world)))
    = Ok (VInt (-42)).
Proof.
  apply (get_int_after_store ascii_printable live (-42)
           (next_uuid example_world) example_world).
  vm_compute. reflexivity.
Defined.

Lemma replay_after_stores_witness :
  let datas := [VStr (u "a"); VBytes "b"; VInt 3] in
  exists keys outs w',
    store_and_replay ascii_printable datas example_world = (Ok keys, w') /\
    Forall2 (fun key o => Encoder_encode key = Ok o) keys outs /\
    stdout w' =
      stdout example_world ++
      summary_line (u "Cache.store") (Z.of_nat (length datas)) ::
      zip_with (entry_line (u "Cache.store"))
        (map (fun d => str_tuple ascii_printable [d]) datas) outs.
Proof.
  intros datas.
  apply (replay_after_stores ascii_printable datas example_world).
  - repeat constructor; eexists _, _; split; vm_compute; reflexivity.
  - vm_compute. discriminate.
Defined.

Lemma store_without_client_witness :
  store ascii_printable {| _redis := NoClient |} (VStr (u "a")) example_world =
    (Raise AttributeError,
     World (db example_world) (log example_world) (urandom example_world)
       (S (drawn example_world)) (stdout example_world)).
Proof.
  apply (store_without_client ascii_printable {| _redis := NoClient |}).
  reflexivity.
Defined.

Lemma store_refused_value_witness :
  let run := store ascii_printable live VNone example_world in
  fst run = Raise DataError /\
  counter (db (snd run)) COUNT_KEY = Some (Z.of_nat 0 + 1)%Z /\
  history (db (snd run)) IN_KEY = Some ([] ++ ["(None,)"]) /\
  history (db (snd run)) OUT_KEY = Some [] /\
  db (snd run) !! next_key example_world
    = db example_world !! next_key example_world.
Proof.
  apply (store_refused_value ascii_printable VNone example_world 0 [] []
           "(None,)" DataError); reflexivity.
Defined.


Lemma store_by_keyword_records_nothing_witness :
  let run := __call__ (Cache_store ascii_printable) live []
               [(u "data", VBytes "x")] example_world in
  fst run = Ok (VStr (next_uuid example_world)) /\
  history (db (snd run)) IN_KEY = Some ([] ++ ["()"]) /\
  db (snd run) !! next_key example_world = Some (RString "x").
Proof.
  apply (store_by_keyword_records_nothing ascii_printable (VBytes "x")
           example_world 0 [] [] "x"); reflexivity.
Defined.

Lemma store_frame_witness :
  db (snd (store ascii_printable live (VBytes "x") kept_world)) !! "other"
    = db kept_world !! "other".
Proof.
  apply (store_frame ascii_printable live (VBytes "x") kept_world "other");
    vm_compute; discriminate.
Defined.

Lemma store_returns_uuid_witness :
  exists s,
    VStr (next_uuid example_world) = VStr s /\ length s = 36 /\
    Forall (fun c => (c < 0x80)%N) s /\
    s !! 8 = Some 45%N /\ s !! 13 = Some 45%N /\
    s !! 18 = Some 45%N /\ s !! 23 = Some 45%N /\
    s !! 14 = Some 52%N.
Proof.
  apply (store_returns_uuid ascii_printable live (VBytes "x")
           (VStr (next_uuid example_world)) example_world
           (snd (store ascii_printable live (VBytes "x") example_world))).
  vm_compute. reflexivity.
Defined.

Lemma replay_unreadable_counter_witness :
  let fn := BoundMethod (Instance live) (Cache_store ascii_printable) in
  (fst (replay fn bad_counter_world) = Raise ValueError \/
   fst (replay fn bad_counter_world) = Raise WRONGTYPE) /\
  stdout (snd (replay fn bad_counter_world)) = stdout bad_counter_world.
Proof.
  apply (replay_unreadable_counter (Instance live) (Cache_store ascii_printable)
           COUNT_KEY bad_counter_world); reflexivity.
Defined.

Lemma replay_stops_at_bad_input_witness :
  let fn := BoundMethod (Instance live) (Cache_store ascii_printable) in
  fst (replay fn bad_input_world) = Raise UnicodeDecodeError /\
  stdout (snd (replay fn bad_input_world))
    = stdout bad_input_world ++ summary_line (u "Cache.store") 0
        :: zip_with (entry_line (u "Cache.store")) [u "('a',)"] ["k1"].
Proof.
  apply (replay_stops_at_bad_input (Instance live) (Cache_store ascii_printable)
           COUNT_KEY 0 ["('a',)"] [u "('a',)"] (String (byte 255) "")
           ["('c',)"] ["k1"] "k2" ["k3"] bad_input_world);
    try reflexivity.
  repeat constructor.
Defined.

Lemma get_int_reads_counter_witness :
  fst (Cache_get_int live (u "Cache.store") three_stores) = Ok (VInt 3).
Proof.
  apply (get_int_reads_counter ascii_printable
           [VStr (u "a"); VStr (u "b"); VStr (u "c")] example_world
           (match fst ((self <- Cache__init__ ;;
                        store_all ascii_printable self
                          [VStr (u "a"); VStr (u "b"); VStr (u "c")])
                       example_world)
            with Ok keys => keys | Raise _ => [] end)
           three_stores).
  - vm_compute. reflexivity.
  - discriminate.
Defined.

Lemma get_on_history_key_raises_witness :
  fst (Cache_get live (u "Cache.store:inputs") None three_stores)
    = Raise WRONGTYPE /\
  fst (Cache_get live (u "Cache.store:outputs") None three_stores)
    = Raise WRONGTYPE.
Proof.
  apply (get_on_history_key_raises ascii_printable
           [VStr (u "a"); VStr (u "b"); VStr (u "c")] example_world
           (match fst ((self <- Cache__init__ ;;
                        store_all ascii_printable self
                          [VStr (u "a"); VStr (u "b"); VStr (u "c")])
                       example_world)
            with Ok keys => keys | Raise _ => [] end)
           three_stores None).
  - vm_compute. reflexivity.
  - discriminate.
Defined.

Lemma stores_of_plain_values_return_witness :
  exists keys w',
    (self <- Cache__init__ ;;
     store_all ascii_printable self [VBytes "a"; VInt 5]) example_world
    = (Ok keys, w').
Proof.
  apply (stores_of_plain_values_return ascii_printable [VBytes "a"; VInt 5]
           example_world).
  - repeat constructor; vm_compute; reflexivity.
  - vm_compute. discriminate.
Defined.
